(** * RecordStore: the CSV-backed CRUD handlers of [main.py]

    A shallow embedding of the FastAPI application: the pydantic models,
    the DataFrame the handlers work on, the CSV file as the only state, the
    handlers in a state-and-exception monad, and the route table in
    registration order.

    - A handler is a function from the state of [data.csv] (absent, or its
      contents) to what it returns or raises and the state it leaves.
    - The two pandas calls that touch the file, [to_csv] and [read_csv],
      are the fields of the class [Csv]; the handlers and the general
      properties are stated for any instance.  Two instances are given:
      [Mem], which reads back the frame that was written, and [PandasNA],
      which reads a field that is one of pandas' missing-value markers as
      [nan].
    - A frame holds cells as Python values ([value]); a table of records
      ([list Item.t]) is the frame whose text cells are all [str]
      ([frame_of]). *)

From Stdlib Require Import ZArith List String Ascii Bool Lia.
Import ListNotations.

Open Scope string_scope.
Open Scope list_scope.
Open Scope Z_scope.

(** ** Values and rows of the DataFrame *)

(** A cell of one of the three text columns as [pd.read_csv] delivers it:
    a [str], the float [nan] that stands for a missing value, or a number
    when the column was inferred as numeric.  The handlers only ever write
    [str] cells. *)
Inductive value : Type :=
| VStr (s : string)
| VNaN
| VInt (z : Z).

(** [cell == s] for a Python [str] [s]: only a [str] cell can be equal. *)
Definition eq_str (v : value) (s : string) : bool :=
  match v with
  | VStr s' => String.eqb s' s
  | _ => false
  end.

(** [cell == x] for an [Optional[str]] [x]; nothing is equal to [None]. *)
Definition eq_opt (v : value) (x : option string) : bool :=
  match x with
  | Some s => eq_str v s
  | None => false
  end.

(** One row of the frame, columns ['id','nome','cognome','codice_fiscale']. *)
Module Row.
Record t : Type := mk
  { id : Z; nome : value; cognome : value; codice_fiscale : value }.
End Row.

(** The frame is its rows in order; the index is the default RangeIndex, so
    a label is a position. *)
Definition DataFrame : Type := list Row.t.

(** [df.empty] *)
Definition empty {A : Type} (df : list A) : bool :=
  match df with
  | [] => true
  | _ :: _ => false
  end.

(** ** Exceptions and the handler monad *)

Inductive exn : Type :=
| HTTPException (status_code : Z) (detail : string)
| ValidationError
| FileNotFoundError
| IndexError.

Inductive result (A : Type) : Type :=
| Return (a : A)
| Raise (e : exn).
Arguments Return {A} a.
Arguments Raise {A} e.

(** A computation over a state [S]: it returns or raises, and in both cases
    leaves a state behind (what was written before a raise stays written). *)
Definition M (S A : Type) : Type := S -> result A * S.

Definition ret {S A : Type} (a : A) : M S A := fun s => (Return a, s).

Definition raise {S A : Type} (e : exn) : M S A := fun s => (Raise e, s).

Definition bind {S A B : Type} (m : M S A) (k : A -> M S B) : M S B :=
  fun s =>
    match m s with
    | (Return a, s') => k a s'
    | (Raise e, s') => (Raise e, s')
    end.

Notation "x <- m ;; k" := (bind m (fun x => k))
  (at level 61, m at next level, right associativity).
Notation "m ;; k" := (bind m (fun _ => k))
  (at level 61, right associativity).

(** ** Pydantic models (lines 13-27) *)

Module Item.
Record t : Type := mk
  { id : Z; nome : string; cognome : string; codice_fiscale : string }.

(** The row a well-typed item is stored as. *)
Definition to_row (i : t) : Row.t :=
  Row.mk (id i) (VStr (nome i)) (VStr (cognome i)) (VStr (codice_fiscale i)).

(** The constructor call [Item] makes on a row's dict: the three text
    fields must be [str].  (Pydantic 2 rejects
    a float or an int for a [str] field; pydantic 1 would turn it into its
    printed form, so a [nan] cell comes out as the text "nan".) *)
Definition validate (d : Row.t) : result t :=
  match Row.nome d, Row.cognome d, Row.codice_fiscale d with
  | VStr n, VStr c, VStr cf => Return (mk (Row.id d) n c cf)
  | _, _, _ => Raise ValidationError
  end.
End Item.

Module ItemCreate.
Record t : Type := mk
  { nome : string; cognome : string; codice_fiscale : string }.
End ItemCreate.

Module ItemUpdate.
Record t : Type := mk
  { nome : option string;
    cognome : option string;
    codice_fiscale : option string }.
End ItemUpdate.

(** Truth value of an [Optional[str]]: [None] and the empty string are
    false. *)
Definition truthy (o : option string) : bool :=
  match o with
  | None => false
  | Some s => negb (String.eqb s "")
  end.

(** ** The CSV file *)

(** [df.to_csv(CSV_FILE, index=False)] and [pd.read_csv(CSV_FILE)] are
    pandas' own; the handlers are defined over any pair of them. *)
Class Csv : Type := mkCsv
  { File : Type;
    to_csv : DataFrame -> File;
    pd_read_csv : File -> DataFrame }.

(** A reader that returns the frame that was written. *)
Definition Mem : Csv := mkCsv DataFrame (fun df => df) (fun f => f).

(** *** The missing-value markers of [pd.read_csv]

    With its defaults ([keep_default_na=True]) the reader turns every field
    whose text is one of these markers into [nan].  The file is kept as its
    data lines after the header, each split into its four fields. *)
Definition na_values : list string :=
  [ ""; "#N/A"; "#N/A N/A"; "#NA"; "-1.#IND"; "-1.#QNAN"; "-NaN"; "-nan";
    "1.#IND"; "1.#QNAN"; "<NA>"; "N/A"; "NA"; "NULL"; "NaN"; "None"; "n/a";
    "nan"; "null" ].

Definition is_na (s : string) : bool := existsb (String.eqb s) na_values.

Definition read_field (s : string) : value :=
  if is_na s then VNaN else VStr s.

Fixpoint digits_of (fuel : nat) (n : Z) (acc : string) : string :=
  match fuel with
  | O => acc
  | S fuel' =>
      let d := String (ascii_of_nat (48 + Z.to_nat (n mod 10))) acc in
      if n / 10 =? 0 then d else digits_of fuel' (n / 10) d
  end.

(** [str(z)] *)
Definition str_of_Z (z : Z) : string :=
  let n := Z.abs z in
  let ds := digits_of (S (Z.to_nat (Z.log2 n))) n "" in
  if z <? 0 then String "-" ds else ds.

(** How [to_csv] prints a cell ([na_rep] is the empty string). *)
Definition write_field (v : value) : string :=
  match v with
  | VStr s => s
  | VNaN => ""
  | VInt z => str_of_Z z
  end.

Definition Line : Type := (Z * string * string * string)%type.

Definition write_line (r : Row.t) : Line :=
  (Row.id r, write_field (Row.nome r), write_field (Row.cognome r),
   write_field (Row.codice_fiscale r)).

Definition read_line (l : Line) : Row.t :=
  let '(i, n, c, cf) := l in
  Row.mk i (read_field n) (read_field c) (read_field cf).

(** The reader with pandas' missing-value recognition.  (Inference of a
    numeric or boolean dtype for a column whose fields all look like
    numbers or booleans is not part of it, nor is the splitting of a field
    at a line break: a text that is no marker is read as it was written.) *)
Definition PandasNA : Csv := mkCsv (list Line) (map write_line) (map read_line).

(** ** Helpers on frames *)

(** [value in column.values] *)
Definition isin (s : string) (column : list value) : bool :=
  existsb (fun v => eq_str v s) column.

(** [int(df['id'].max())] of a frame with first row [r] and rest [rest]. *)
Definition id_max (r : Row.t) (rest : DataFrame) : Z :=
  fold_left Z.max (map Row.id rest) (Row.id r).

(** The index of the rows selected by a mask: their positions, in order. *)
Fixpoint index_from (n : nat) (mask : Row.t -> bool) (df : DataFrame) : list nat :=
  match df with
  | [] => []
  | r :: df' =>
      if mask r then n :: index_from (S n) mask df'
      else index_from (S n) mask df'
  end.

Definition index (mask : Row.t -> bool) (df : DataFrame) : list nat :=
  index_from 0 mask df.

(** [df.at[idx, col] = v], with [f] the assignment to the column.  An index
    label that is not in the frame does not occur: [idx] always comes from
    [index]. *)
Fixpoint at_set (idx : nat) (f : Row.t -> Row.t) (df : DataFrame) : DataFrame :=
  match df, idx with
  | [], _ => []
  | r :: df', O => f r :: df'
  | r :: df', S i => r :: at_set i f df'
  end.

Definition set_nome (v : string) (r : Row.t) : Row.t :=
  Row.mk (Row.id r) (VStr v) (Row.cognome r) (Row.codice_fiscale r).

Definition set_cognome (v : string) (r : Row.t) : Row.t :=
  Row.mk (Row.id r) (Row.nome r) (VStr v) (Row.codice_fiscale r).

Definition set_codice_fiscale (v : string) (r : Row.t) : Row.t :=
  Row.mk (Row.id r) (Row.nome r) (Row.cognome r) (VStr v).

(** [if x is not None: df.at[idx, col] = x] *)
Definition assign (x : option string) (setter : string -> Row.t -> Row.t)
  (idx : nat) (df : DataFrame) : DataFrame :=
  match x with
  | Some v => at_set idx (setter v) df
  | None => df
  end.

(** The duplicate test of [update_item] (lines 109-112) as a boolean. *)
Definition update_conflict (item_id : Z) (u : ItemUpdate.t) (df : DataFrame)
  : bool :=
  truthy (ItemUpdate.codice_fiscale u)
  && negb
       (empty
          (filter
             (fun r =>
                eq_opt (Row.codice_fiscale r) (ItemUpdate.codice_fiscale u)
                && negb (Row.id r =? item_id))
             df)).

(** The list comprehension over [df.iterrows()] that builds an [Item] from
    each row: the first row that does not validate raises. *)
Fixpoint validate_all (df : DataFrame) : result (list Item.t) :=
  match df with
  | [] => Return []
  | r :: df' =>
      match Item.validate r with
      | Raise e => Raise e
      | Return i =>
          match validate_all df' with
          | Raise e => Raise e
          | Return l => Return (i :: l)
          end
      end
  end.

Definition lift {S A : Type} (r : result A) : M S A := fun s => (r, s).

Definition not_found : exn := HTTPException 404 "Item not found".

Definition duplicate : exn := HTTPException 400 "Codice fiscale already exists".

(** ** The handlers (lines 29-153) *)

Section Handlers.
Context {csv : Csv}.

(** The state: the contents of [data.csv], or [None] when the file does not
    exist. *)
Definition FS : Type := option File.

(** [os.path.exists(CSV_FILE)] *)
Definition os_path_exists : M FS bool :=
  fun fs =>
    match fs with
    | Some _ => (Return true, fs)
    | None => (Return false, fs)
    end.

(** [df.to_csv(CSV_FILE, index=False)] *)
Definition df_to_csv (df : DataFrame) : M FS unit :=
  fun _ => (Return tt, Some (to_csv df)).

(** [pd.read_csv(CSV_FILE)] *)
Definition pd_read_csv_file : M FS DataFrame :=
  fun fs =>
    match fs with
    | Some f => (Return (pd_read_csv f), fs)
    | None => (Raise FileNotFoundError, fs)
    end.

Definition init_csv : M FS unit :=
  b <- os_path_exists ;;
  if negb b then df_to_csv [] else ret tt.

Definition read_csv : M FS DataFrame :=
  init_csv ;; pd_read_csv_file.

Definition write_csv (df : DataFrame) : M FS unit := df_to_csv df.

Definition get_next_id : M FS Z :=
  df <- read_csv ;;
  match df with
  | [] => ret 1
  | r :: rest => ret (id_max r rest + 1)
  end.

Definition create_item (item : ItemCreate.t) : M FS Item.t :=
  df <- read_csv ;;
  if negb (empty df)
     && isin (ItemCreate.codice_fiscale item) (map Row.codice_fiscale df)
  then raise duplicate
  else
    new_id <- get_next_id ;;
    let new_item :=
      Row.mk new_id (VStr (ItemCreate.nome item))
        (VStr (ItemCreate.cognome item))
        (VStr (ItemCreate.codice_fiscale item)) in
    let df := df ++ [new_item] in
    write_csv df ;;
    lift (Item.validate new_item).

Definition get_all_items : M FS (list Item.t) :=
  df <- read_csv ;;
  if empty df then ret [] else lift (validate_all df).

Definition get_item (item_id : Z) : M FS Item.t :=
  df <- read_csv ;;
  if empty df then raise not_found
  else
    let item_row := filter (fun r => Row.id r =? item_id) df in
    match item_row with
    | [] => raise not_found
    | r :: _ => lift (Item.validate r)
    end.

Definition update_item (item_id : Z) (item_update : ItemUpdate.t) : M FS Item.t :=
  df <- read_csv ;;
  if empty df then raise not_found
  else
    let item_index := index (fun r => Row.id r =? item_id) df in
    match item_index with
    | [] => raise not_found
    | idx :: _ =>
        (if truthy (ItemUpdate.codice_fiscale item_update) then
           let existing_cf :=
             filter
               (fun r =>
                  eq_opt (Row.codice_fiscale r)
                    (ItemUpdate.codice_fiscale item_update)
                  && negb (Row.id r =? item_id))
               df in
           if negb (empty existing_cf) then raise duplicate else ret tt
         else ret tt) ;;
        let df := assign (ItemUpdate.nome item_update) set_nome idx df in
        let df := assign (ItemUpdate.cognome item_update) set_cognome idx df in
        let df :=
          assign (ItemUpdate.codice_fiscale item_update) set_codice_fiscale
            idx df in
        write_csv df ;;
        match nth_error df idx with
        | Some r => lift (Item.validate r)
        | None => raise IndexError
        end
    end.

Definition delete_item (item_id : Z) : M FS string :=
  df <- read_csv ;;
  if empty df then raise not_found
  else
    let item_exists := filter (fun r => Row.id r =? item_id) df in
    if empty item_exists then raise not_found
    else
      let df := filter (fun r => negb (Row.id r =? item_id)) df in
      write_csv df ;;
      ret "Item deleted successfully".

Definition get_items_count : M FS Z :=
  df <- read_csv ;;
  ret (Z.of_nat (List.length df)).

Definition root : M FS string :=
  ret "CSV Management API is running".

End Handlers.

(** ** The route table (the decorators, in the order they run) *)

Inductive method : Type := GET | POST | PUT | DELETE | HEAD | PATCH | OPTIONS.

Definition method_eqb (a b : method) : bool :=
  match a, b with
  | GET, GET | POST, POST | PUT, PUT | DELETE, DELETE
  | HEAD, HEAD | PATCH, PATCH | OPTIONS, OPTIONS => true
  | _, _ => false
  end.

(** A path of the application: a literal, or a literal prefix followed by
    one parameter, which matches one non-empty segment without a slash
    (Starlette's default convertor, the regex [[^/]+]). *)
Inductive template : Type :=
| Literal (path : string)
| WithParam (prefix : string) (name : string).

Fixpoint strip_prefix (p s : string) : option string :=
  match p with
  | EmptyString => Some s
  | String a p' =>
      match s with
      | EmptyString => None
      | String b s' => if Ascii.eqb a b then strip_prefix p' s' else None
      end
  end.

Fixpoint has_slash (s : string) : bool :=
  match s with
  | EmptyString => false
  | String a s' => Ascii.eqb a "/" || has_slash s'
  end.

(** The parameters a path gives when it matches the template. *)
Definition match_path (t : template) (path : string) : option (list string) :=
  match t with
  | Literal p => if String.eqb p path then Some [] else None
  | WithParam prefix _ =>
      match strip_prefix prefix path with
      | Some seg =>
          if String.eqb seg "" || has_slash seg then None else Some [seg]
      | None => None
      end
  end.

Inductive endpoint : Type :=
| Ep_create_item
| Ep_get_all_items
| Ep_get_item
| Ep_update_item
| Ep_delete_item
| Ep_get_items_count
| Ep_root.

Record route : Type := mkRoute
  { route_method : method; route_path : template; route_endpoint : endpoint }.

(** The routes of [app], in the order the decorators register them.  The
    routes [FastAPI] itself adds for the documentation ([/openapi.json],
    [/docs], [/docs/oauth2-redirect], [/redoc]) are not in this table; none
    of them is under [/items/]. *)
Definition routes : list route :=
  [ mkRoute POST (Literal "/items/") Ep_create_item;
    mkRoute GET (Literal "/items/") Ep_get_all_items;
    mkRoute GET (WithParam "/items/" "item_id") Ep_get_item;
    mkRoute PUT (WithParam "/items/" "item_id") Ep_update_item;
    mkRoute DELETE (WithParam "/items/" "item_id") Ep_delete_item;
    mkRoute GET (Literal "/items/count") Ep_get_items_count;
    mkRoute GET (Literal "/") Ep_root ].

(** Starlette's [Match]. *)
Inductive route_match : Type :=
| NONE
| PARTIAL
| FULL (params : list string).

Definition matches (r : route) (m : method) (path : string) : route_match :=
  match match_path (route_path r) path with
  | None => NONE
  | Some params =>
      if method_eqb (route_method r) m then FULL params else PARTIAL
  end.

(** The first route that matches in full, with the path parameters. *)
Fixpoint first_full (rs : list route) (m : method) (path : string)
  : option (route * list string) :=
  match rs with
  | [] => None
  | r :: rs' =>
      match matches r m path with
      | FULL params => Some (r, params)
      | _ => first_full rs' m path
      end
  end.

Definition any_match (rs : list route) (m : method) (path : string) : bool :=
  existsb
    (fun r => match matches r m path with NONE => false | _ => true end)
    rs.

(** *** Request data *)

Fixpoint digits (s : string) (acc : Z) : option Z :=
  match s with
  | EmptyString => Some acc
  | String a s' =>
      let n := nat_of_ascii a in
      if (48 <=? n)%nat && (n <=? 57)%nat
      then digits s' (10 * acc + Z.of_nat (n - 48))
      else None
  end.

(** The [int] a path parameter is converted to: decimal digits with an
    optional sign.  A text without any digit is never an [int].  (Pydantic
    also converts some other spellings, such as a text with spaces around
    the digits; they get no [int] here.) *)
Definition parse_int (s : string) : option Z :=
  match s with
  | EmptyString => None
  | String "-" (String a s' as ds) => option_map Z.opp (digits ds 0)
  | String "+" (String a s' as ds) => digits ds 0
  | _ => digits s 0
  end.

(** A JSON value of the request body's object: a string, [null], or
    anything else. *)
Inductive json : Type :=
| JString (s : string)
| JNull
| JOther.

Definition json_object : Type := list (string * json).

(** The value of a key (the last one wins, as in [json.loads]). *)
Fixpoint json_get (key : string) (o : json_object) : option json :=
  match o with
  | [] => None
  | (k, v) :: o' =>
      match json_get key o' with
      | Some v' => Some v'
      | None => if String.eqb k key then Some v else None
      end
  end.

(** A required [str] field. *)
Definition required_str (key : string) (o : json_object) : option string :=
  match json_get key o with
  | Some (JString s) => Some s
  | _ => None
  end.

(** An [Optional[str] = None] field: [Some None] when absent or [null]. *)
Definition optional_str (key : string) (o : json_object)
  : option (option string) :=
  match json_get key o with
  | None | Some JNull => Some None
  | Some (JString s) => Some (Some s)
  | Some JOther => None
  end.

Definition parse_ItemCreate (o : json_object) : option ItemCreate.t :=
  match required_str "nome" o, required_str "cognome" o,
        required_str "codice_fiscale" o with
  | Some n, Some c, Some cf => Some (ItemCreate.mk n c cf)
  | _, _, _ => None
  end.

Definition parse_ItemUpdate (o : json_object) : option ItemUpdate.t :=
  match optional_str "nome" o, optional_str "cognome" o,
        optional_str "codice_fiscale" o with
  | Some n, Some c, Some cf => Some (ItemUpdate.mk n c cf)
  | _, _, _ => None
  end.

Record request : Type := mkRequest
  { req_method : method; req_path : string; req_body : option json_object }.

(** What a response carries. *)
Inductive content : Type :=
| JsonItem (i : Item.t)
| JsonItems (l : list Item.t)
| JsonCount (count : Z)
| JsonMessage (message : string)
| JsonDetail (detail : string)
| JsonValidationErrors
| Redirect_to (location : string)
| ServerError.

Record response : Type := mkResponse
  { status_code : Z; body : content }.

Definition unprocessable : response := mkResponse 422 JsonValidationErrors.

(** The response to what a handler returned or raised. *)
Definition respond {A : Type} (wrap : A -> content) (r : result A) : response :=
  match r with
  | Return a => mkResponse 200 (wrap a)
  | Raise (HTTPException code detail) => mkResponse code (JsonDetail detail)
  | Raise _ => mkResponse 500 ServerError
  end.

(** [path.rstrip("/")] *)
Fixpoint rstrip_slash (path : string) : string :=
  match path with
  | EmptyString => EmptyString
  | String a p' =>
      match rstrip_slash p' with
      | EmptyString => if Ascii.eqb a "/" then EmptyString else String a EmptyString
      | rest => String a rest
      end
  end.

Fixpoint ends_with_slash (path : string) : bool :=
  match path with
  | EmptyString => false
  | String a EmptyString => Ascii.eqb a "/"
  | String _ p' => ends_with_slash p'
  end.

(** The path Starlette tries when nothing matched: without its final
    slashes, or with one added. *)
Definition toggle_slash (path : string) : string :=
  if ends_with_slash path then rstrip_slash path else String.append path "/".

Section App.
Context {csv : Csv}.

(** Run a handler and turn its outcome into a response. *)
Definition serve {A : Type} (wrap : A -> content) (h : M FS A) (fs : FS)
  : response * FS :=
  let (r, fs') := h fs in (respond wrap r, fs').

(** Calling an endpoint: the path parameter and the body are validated
    first, and a request that fails validation gets 422 without the handler
    being run. *)
Definition call (e : endpoint) (params : list string)
  (body : option json_object) (fs : FS) : response * FS :=
  match e with
  | Ep_create_item =>
      match option_map parse_ItemCreate body with
      | Some (Some item) => serve JsonItem (create_item item) fs
      | _ => (unprocessable, fs)
      end
  | Ep_get_all_items => serve JsonItems get_all_items fs
  | Ep_get_item =>
      match option_map parse_int (hd_error params) with
      | Some (Some item_id) => serve JsonItem (get_item item_id) fs
      | _ => (unprocessable, fs)
      end
  | Ep_update_item =>
      match option_map parse_int (hd_error params),
            option_map parse_ItemUpdate body with
      | Some (Some item_id), Some (Some item_update) =>
          serve JsonItem (update_item item_id item_update) fs
      | _, _ => (unprocessable, fs)
      end
  | Ep_delete_item =>
      match option_map parse_int (hd_error params) with
      | Some (Some item_id) => serve JsonMessage (delete_item item_id) fs
      | _ => (unprocessable, fs)
      end
  | Ep_get_items_count => serve JsonCount get_items_count fs
  | Ep_root => serve JsonMessage root fs
  end.

(** The application on one request: the first route that matches in full
    is called; a path that matches only with another method gives 405; a
    path that matches with its final slash toggled is redirected; anything
    else is 404. *)
Definition app (rq : request) (fs : FS) : response * FS :=
  match first_full routes (req_method rq) (req_path rq) with
  | Some (r, params) => call (route_endpoint r) params (req_body rq) fs
  | None =>
      if any_match routes (req_method rq) (req_path rq)
      then (mkResponse 405 (JsonDetail "Method Not Allowed"), fs)
      else if negb (String.eqb (req_path rq) "/")
              && any_match routes (req_method rq) (toggle_slash (req_path rq))
      then (mkResponse 307 (Redirect_to (toggle_slash (req_path rq))), fs)
      else (mkResponse 404 (JsonDetail "Not Found"), fs)
  end.

End App.


(** ** Vocabulary of the properties *)

(** The frame of a table of well-typed records. *)
Definition frame_of (t : list Item.t) : DataFrame := map Item.to_row t.

(** [m] is the greatest element of [l]. *)
Definition is_max (m : Z) (l : list Z) : Prop :=
  In m l /\ forall x, In x l -> x <= m.

(** The row after an update: a supplied field replaces the cell, an absent
    one leaves it, and the id stays. *)
Definition apply_fields (u : ItemUpdate.t) (r : Row.t) : Row.t :=
  Row.mk (Row.id r)
    (match ItemUpdate.nome u with Some v => VStr v | None => Row.nome r end)
    (match ItemUpdate.cognome u with Some v => VStr v | None => Row.cognome r end)
    (match ItemUpdate.codice_fiscale u with
     | Some v => VStr v
     | None => Row.codice_fiscale r
     end).

(** The update that supplies no field. *)
Definition no_fields : ItemUpdate.t := ItemUpdate.mk None None None.

(** No two records share a fiscal code. *)
Definition unique_cf (df : DataFrame) : Prop :=
  NoDup (map Row.codice_fiscale df).

(** The calls a client can make, and a sequence of them run in order. *)
Inductive op : Type :=
| Create (item : ItemCreate.t)
| ListAll
| GetById (item_id : Z)
| Update (item_id : Z) (item_update : ItemUpdate.t)
| DeleteById (item_id : Z)
| Count.


(** *** The table of records after a call

    What each call does to a table of well-typed records, stated on the
    records themselves; [table_exec] below shows the handlers do exactly
    this to the file. *)

Definition next_id (t : list Item.t) : Z :=
  match t with
  | [] => 1
  | i :: rest => fold_left Z.max (map Item.id rest) (Item.id i) + 1
  end.

Definition apply_item (u : ItemUpdate.t) (i : Item.t) : Item.t :=
  Item.mk (Item.id i)
    (match ItemUpdate.nome u with Some v => v | None => Item.nome i end)
    (match ItemUpdate.cognome u with Some v => v | None => Item.cognome i end)
    (match ItemUpdate.codice_fiscale u with
     | Some v => v
     | None => Item.codice_fiscale i
     end).

Fixpoint update_first (item_id : Z) (f : Item.t -> Item.t) (t : list Item.t)
  : list Item.t :=
  match t with
  | [] => []
  | i :: t' =>
      if Item.id i =? item_id then f i :: t'
      else i :: update_first item_id f t'
  end.

Definition has_id (item_id : Z) (t : list Item.t) : bool :=
  existsb (fun i => Item.id i =? item_id) t.

Definition has_cf (cf : string) (t : list Item.t) : bool :=
  existsb (fun i => String.eqb (Item.codice_fiscale i) cf) t.

(** The duplicate test of [update_item] on records: the supplied fiscal
    code is a non-empty text that a record with another id holds. *)
Definition conflict (item_id : Z) (u : ItemUpdate.t) (t : list Item.t) : bool :=
  truthy (ItemUpdate.codice_fiscale u)
  && existsb
       (fun i =>
          eq_opt (VStr (Item.codice_fiscale i)) (ItemUpdate.codice_fiscale u)
          && negb (Item.id i =? item_id))
       t.

Definition next_table (o : op) (t : list Item.t) : list Item.t :=
  match o with
  | Create item =>
      if has_cf (ItemCreate.codice_fiscale item) t then t
      else
        t ++ [Item.mk (next_id t) (ItemCreate.nome item)
                (ItemCreate.cognome item) (ItemCreate.codice_fiscale item)]
  | Update item_id u =>
      if has_id item_id t && negb (conflict item_id u t)
      then update_first item_id (apply_item u) t
      else t
  | DeleteById item_id => filter (fun i => negb (Item.id i =? item_id)) t
  | ListAll | GetById _ | Count => t
  end.

Section Texts.
Variable safe : string -> bool.

Definition safe_opt (x : option string) : bool :=
  match x with
  | Some s => safe s
  | None => true
  end.

Definition safe_item (i : Item.t) : bool :=
  safe (Item.nome i) && safe (Item.cognome i) && safe (Item.codice_fiscale i).

(** Every text the call supplies is [safe]. *)
Definition safe_op (o : op) : bool :=
  match o with
  | Create item =>
      safe (ItemCreate.nome item) && safe (ItemCreate.cognome item)
      && safe (ItemCreate.codice_fiscale item)
  | Update _ u =>
      safe_opt (ItemUpdate.nome u) && safe_opt (ItemUpdate.cognome u)
      && safe_opt (ItemUpdate.codice_fiscale u)
  | _ => true
  end.

End Texts.

Section Store.
Context {csv : Csv}.

(** The file as it is once [init_csv] has run. *)
Definition init_file (fs : FS) : File :=
  match fs with
  | Some f => f
  | None => to_csv []
  end.

(** The table of a state: the frame every handler starts from. *)
Definition table (fs : FS) : DataFrame := pd_read_csv (init_file fs).

(** The state a call leaves behind. *)
Definition exec (o : op) (fs : FS) : FS :=
  match o with
  | Create item => snd (create_item item fs)
  | ListAll => snd (get_all_items fs)
  | GetById item_id => snd (get_item item_id fs)
  | Update item_id u => snd (update_item item_id u fs)
  | DeleteById item_id => snd (delete_item item_id fs)
  | Count => snd (get_items_count fs)
  end.

Definition run (ops : list op) (fs : FS) : FS :=
  fold_left (fun s o => exec o s) ops fs.

(** The reader returns every table of [safe] texts as it was written. *)
Definition reads_back (safe : string -> bool) : Prop :=
  forall t : list Item.t,
    forallb (safe_item safe) t = true ->
    pd_read_csv (to_csv (frame_of t)) = frame_of t.

(** What calling an endpoint can give: the response and the state. *)
Inductive outcome (fs : FS) : response * FS -> Prop :=
| Rejected : outcome fs (unprocessable, fs)
| Answered_untouched (c : content) : outcome fs (mkResponse 200 c, fs)
| Answered_read (c : content) :
    outcome fs (mkResponse 200 c, Some (init_file fs))
| Answered_written (c : content) (df : DataFrame) :
    outcome fs (mkResponse 200 c, Some (to_csv df))
| Missing :
    outcome fs
      (mkResponse 404 (JsonDetail "Item not found"), Some (init_file fs))
| Conflict :
    outcome fs
      (mkResponse 400 (JsonDetail "Codice fiscale already exists"),
       Some (init_file fs))
| Broken_read : outcome fs (mkResponse 500 ServerError, Some (init_file fs))
| Broken_written (df : DataFrame) :
    outcome fs (mkResponse 500 ServerError, Some (to_csv df)).

End Store.


(** *** Sample requests and stores *)

Definition mario : ItemCreate.t :=
  ItemCreate.mk "Mario" "Rossi" "RSSMRA80A01H501U".

Definition luigi : ItemCreate.t :=
  ItemCreate.mk "Luigi" "Verdi" "VRDLGU75B02F205X".

Definition anna : ItemCreate.t :=
  ItemCreate.mk "Anna" "Bianchi" "BNCNNA90C43L219K".

Definition carla : ItemCreate.t :=
  ItemCreate.mk "Carla" "Neri" "NRECRL85D44G273Q".

(** A request whose fiscal code is the empty string. *)
Definition nobody : ItemCreate.t := ItemCreate.mk "Luigi" "Verdi" "".

(** A request whose first name is one of the reader's markers. *)
Definition na_rossi : ItemCreate.t :=
  ItemCreate.mk "NA" "Rossi" "RSSMRA80A01H501U".

(** Two requests with the same fiscal code, which is one of the reader's
    markers. *)
Definition mario_na : json_object :=
  [("nome", JString "Mario"); ("cognome", JString "Rossi");
   ("codice_fiscale", JString "NA")].

Definition luigi_na : json_object :=
  [("nome", JString "Luigi"); ("cognome", JString "Verdi");
   ("codice_fiscale", JString "NA")].

(** The update that sets the fiscal code to the empty string. *)
Definition clear_cf : ItemUpdate.t := ItemUpdate.mk None None (Some "").

Definition mario_1 : Item.t := Item.mk 1 "Mario" "Rossi" "RSSMRA80A01H501U".

Definition luigi_2 : Item.t := Item.mk 2 "Luigi" "Verdi" "VRDLGU75B02F205X".


(** The update that changes the first name only. *)
Definition rename : ItemUpdate.t := ItemUpdate.mk (Some "Gino") None None.

(** A text the marker-aware reader returns as it is. *)
Definition not_na (s : string) : bool := negb (is_na s).

(** *** Vocabulary of the properties of whole requests *)


(** The status codes the application answers with. *)
Definition status_codes : list Z := [200; 307; 400; 404; 405; 422; 500].

(** The path of the record [item_id]: the prefix and the decimal text of the
    id. *)
Definition item_path (item_id : Z) : string :=
  String.append "/items/" (str_of_Z item_id).

(** One of the three texts of the request is a missing-value marker. *)
Definition has_marker (item : ItemCreate.t) : bool :=
  is_na (ItemCreate.nome item) || is_na (ItemCreate.cognome item)
  || is_na (ItemCreate.codice_fiscale item).

(** ** Lemmas on frames *)

Lemma fold_max_spec (l : list Z) (a : Z) :
  (fold_left Z.max l a = a \/ In (fold_left Z.max l a) l)
  /\ a <= fold_left Z.max l a
  /\ forall x, In x l -> x <= fold_left Z.max l a.
Proof.
  revert a. induction l as [|x l IH]; intros a; simpl.
  - repeat split; [now left|lia|intros ? []].
  - destruct (IH (Z.max a x)) as (Hm & Hge & Hle). repeat split.
    + destruct Hm as [E|Hin]; [|now right; right].
      destruct (Z.max_spec a x) as [[_ E2]|[_ E2]].
      * right; left. congruence.
      * left. congruence.
    + lia.
    + intros y [<-|Hy]; [lia|now apply Hle].
Qed.

Lemma id_max_is_max (r : Row.t) (rest : DataFrame) :
  is_max (id_max r rest) (map Row.id (r :: rest)).
Proof.
  unfold id_max, is_max. simpl.
  destruct (fold_max_spec (map Row.id rest) (Row.id r)) as (Hm & Hge & Hle).
  split.
  - destruct Hm as [E|Hin]; [left; now rewrite E|now right].
  - intros x [<-|Hx]; [exact Hge|now apply Hle].
Qed.

Lemma is_max_unique (l : list Z) (m m' : Z) :
  is_max m l -> is_max m' l -> m = m'.
Proof.
  intros [Hin Hle] [Hin' Hle']. specialize (Hle _ Hin'). specialize (Hle' _ Hin). lia.
Qed.

Lemma isin_false (s : string) (df : DataFrame) :
  (forall r, In r df -> Row.codice_fiscale r <> VStr s) ->
  isin s (map Row.codice_fiscale df) = false.
Proof.
  intros H. unfold isin. induction df as [|r df IH]; simpl; [reflexivity|].
  rewrite IH by (intros; apply H; now right).
  assert (Hr := H r (or_introl eq_refl)).
  destruct (Row.codice_fiscale r) as [s'| |z]; simpl; try reflexivity.
  destruct (String.eqb_spec s' s) as [->|]; [now elim Hr|reflexivity].
Qed.

Lemma isin_true (s : string) (df : DataFrame) (r : Row.t) :
  In r df -> Row.codice_fiscale r = VStr s ->
  isin s (map Row.codice_fiscale df) = true.
Proof.
  intros Hin Hcf. unfold isin. apply existsb_exists.
  exists (VStr s). split; [|simpl; apply String.eqb_refl].
  rewrite <- Hcf. now apply in_map.
Qed.

(** The first selected position splits the frame around the first selected
    row. *)
Lemma index_from_split (mask : Row.t -> bool) (df : DataFrame) (n idx : nat)
  (rest : list nat) :
  index_from n mask df = idx :: rest ->
  exists l1 r l2,
    df = l1 ++ r :: l2 /\ idx = (n + List.length l1)%nat /\ mask r = true
    /\ forall x, In x l1 -> mask x = false.
Proof.
  revert n. induction df as [|x df IH]; intros n H; simpl in H; [discriminate|].
  destruct (mask x) eqn:Hx.
  - injection H as <- _. exists [], x, df. simpl.
    repeat split; [lia|exact Hx|intros ? []].
  - destruct (IH _ H) as (l1 & r & l2 & -> & -> & Hr & Hl1).
    exists (x :: l1), r, l2. simpl. repeat split; [lia|exact Hr|].
    intros y [<-|Hy]; [exact Hx|now apply Hl1].
Qed.

Lemma index_from_nil (mask : Row.t -> bool) (df : DataFrame) (n : nat) :
  index_from n mask df = [] <-> forall x, In x df -> mask x = false.
Proof.
  revert n. induction df as [|x df IH]; intros n; simpl.
  - split; [intros _ ? []|reflexivity].
  - destruct (mask x) eqn:Hx.
    + split; [discriminate|]. intros H. specialize (H x (or_introl eq_refl)). congruence.
    + rewrite IH. split.
      * intros H y [<-|Hy]; [exact Hx|now apply H].
      * intros H y Hy. apply H. now right.
Qed.

Lemma index_from_first (mask : Row.t -> bool) (l1 l2 : DataFrame) (r : Row.t)
  (n : nat) :
  (forall x, In x l1 -> mask x = false) -> mask r = true ->
  exists rest,
    index_from n mask (l1 ++ r :: l2) = (n + List.length l1)%nat :: rest.
Proof.
  revert n. induction l1 as [|x l1 IH]; intros n Hl1 Hr; simpl.
  - rewrite Hr. rewrite Nat.add_0_r. eexists; reflexivity.
  - rewrite (Hl1 x (or_introl eq_refl)).
    destruct (IH (S n)) as [rest E]; [intros; apply Hl1; now right|exact Hr|].
    exists rest. rewrite E. f_equal. lia.
Qed.

Lemma at_set_middle (f : Row.t -> Row.t) (l1 l2 : DataFrame) (r : Row.t) :
  at_set (List.length l1) f (l1 ++ r :: l2) = l1 ++ f r :: l2.
Proof.
  induction l1 as [|x l1 IH]; simpl; [reflexivity|]. now rewrite IH.
Qed.

Lemma nth_error_middle (l1 l2 : DataFrame) (r : Row.t) :
  nth_error (l1 ++ r :: l2) (List.length l1) = Some r.
Proof.
  induction l1 as [|x l1 IH]; simpl; [reflexivity|exact IH].
Qed.

Lemma assign_all (u : ItemUpdate.t) (l1 l2 : DataFrame) (r : Row.t) :
  assign (ItemUpdate.codice_fiscale u) set_codice_fiscale (List.length l1)
    (assign (ItemUpdate.cognome u) set_cognome (List.length l1)
       (assign (ItemUpdate.nome u) set_nome (List.length l1) (l1 ++ r :: l2)))
  = l1 ++ apply_fields u r :: l2.
Proof.
  destruct u as [[n|] [c|] [cf|]]; destruct r as [i rn rc rcf];
    unfold assign, apply_fields; simpl;
    repeat rewrite at_set_middle; reflexivity.
Qed.

Lemma filter_nil_iff {A : Type} (p : A -> bool) (l : list A) :
  filter p l = [] <-> forall x, In x l -> p x = false.
Proof.
  induction l as [|a l IH]; simpl.
  - split; [intros _ ? []|reflexivity].
  - destruct (p a) eqn:Ha.
    + split; [discriminate|]. intros H. specialize (H a (or_introl eq_refl)). congruence.
    + rewrite IH. split.
      * intros H y [<-|Hy]; [exact Ha|now apply H].
      * intros H y Hy. apply H. now right.
Qed.

Lemma validate_to_row (i : Item.t) : Item.validate (Item.to_row i) = Return i.
Proof. destruct i; reflexivity. Qed.

Lemma validate_all_frame_of (t : list Item.t) :
  validate_all (frame_of t) = Return t.
Proof.
  unfold frame_of. induction t as [|i t IH]; [reflexivity|].
  cbn [map validate_all]. now rewrite validate_to_row, IH.
Qed.

Lemma validate_inv (d : Row.t) (i : Item.t) :
  Item.validate d = Return i -> Item.to_row i = d.
Proof.
  destruct d as [k [n| |zn] [c| |zc] [cf| |zcf]]; unfold Item.validate; simpl;
    intros H; try discriminate.
  injection H as <-. reflexivity.
Qed.

Lemma apply_no_fields (r : Row.t) : apply_fields no_fields r = r.
Proof. destruct r; reflexivity. Qed.



(** ** The handlers in terms of the table they read *)

Section Equations.
Context {csv : Csv}.

Lemma read_csv_eq (fs : FS) :
  read_csv fs = (Return (table fs), Some (init_file fs)).
Proof. destruct fs; reflexivity. Qed.

Lemma table_init (fs : FS) : table (Some (init_file fs)) = table fs.
Proof. reflexivity. Qed.

Lemma bind_read_csv {A : Type} (k : DataFrame -> M FS A) (fs : FS) :
  bind read_csv k fs = k (table fs) (Some (init_file fs)).
Proof. unfold bind. now rewrite read_csv_eq. Qed.

Lemma get_next_id_eq (fs : FS) :
  get_next_id fs
  = (Return (match table fs with [] => 1 | r :: rest => id_max r rest + 1 end),
     Some (init_file fs)).
Proof.
  unfold get_next_id. rewrite bind_read_csv. destruct (table fs); reflexivity.
Qed.

Lemma create_item_eq (item : ItemCreate.t) (fs : FS) :
  create_item item fs
  = if isin (ItemCreate.codice_fiscale item) (map Row.codice_fiscale (table fs))
    then (Raise duplicate, Some (init_file fs))
    else
      let new_id :=
        match table fs with [] => 1 | r :: rest => id_max r rest + 1 end in
      let i :=
        Item.mk new_id (ItemCreate.nome item) (ItemCreate.cognome item)
          (ItemCreate.codice_fiscale item) in
      (Return i, Some (to_csv (table fs ++ [Item.to_row i]))).
Proof.
  unfold create_item. rewrite bind_read_csv.
  destruct (table fs) as [|r rest] eqn:Ht.
  - simpl. unfold bind. rewrite get_next_id_eq. rewrite table_init, Ht. reflexivity.
  - cbn [empty negb andb].
    destruct (isin _ _); [reflexivity|].
    unfold bind. rewrite get_next_id_eq. rewrite table_init, Ht. reflexivity.
Qed.

Lemma get_all_items_eq (fs : FS) :
  get_all_items fs = (validate_all (table fs), Some (init_file fs)).
Proof.
  unfold get_all_items. rewrite bind_read_csv. destruct (table fs); reflexivity.
Qed.

Lemma get_item_eq (item_id : Z) (fs : FS) :
  get_item item_id fs
  = (match filter (fun r => Row.id r =? item_id) (table fs) with
     | [] => Raise not_found
     | r :: _ => Item.validate r
     end, Some (init_file fs)).
Proof.
  unfold get_item. rewrite bind_read_csv.
  destruct (table fs) as [|r rest]; [reflexivity|].
  cbn [empty]. destruct (filter _ _); reflexivity.
Qed.

Lemma delete_item_eq (item_id : Z) (fs : FS) :
  delete_item item_id fs
  = match filter (fun r => Row.id r =? item_id) (table fs) with
    | [] => (Raise not_found, Some (init_file fs))
    | _ :: _ =>
        (Return "Item deleted successfully",
         Some (to_csv (filter (fun r => negb (Row.id r =? item_id)) (table fs))))
    end.
Proof.
  unfold delete_item. rewrite bind_read_csv.
  destruct (table fs) as [|r rest]; [reflexivity|].
  cbn [empty]. destruct (filter _ _); reflexivity.
Qed.

Lemma get_items_count_eq (fs : FS) :
  get_items_count fs
  = (Return (Z.of_nat (List.length (table fs))), Some (init_file fs)).
Proof. unfold get_items_count. now rewrite bind_read_csv. Qed.

End Equations.

Section UpdateEquations.
Context {csv : Csv}.

Lemma update_item_absent (item_id : Z) (u : ItemUpdate.t) (fs : FS) :
  ~ In item_id (map Row.id (table fs)) ->
  update_item item_id u fs = (Raise not_found, Some (init_file fs)).
Proof.
  intros Hnot. unfold update_item. rewrite bind_read_csv.
  destruct (table fs) as [|r rest] eqn:Ht; [reflexivity|].
  cbn [empty].
  assert (E : index (fun x => Row.id x =? item_id) (r :: rest) = []).
  { apply index_from_nil. intros x Hx. apply Z.eqb_neq. intros <-.
    apply Hnot. now apply in_map. }
  now rewrite E.
Qed.

Lemma update_item_present (item_id : Z) (u : ItemUpdate.t) (fs : FS)
  (l1 l2 : DataFrame) (r : Row.t) :
  table fs = l1 ++ r :: l2 -> Row.id r = item_id ->
  (forall x, In x l1 -> Row.id x <> item_id) ->
  update_item item_id u fs
  = if update_conflict item_id u (table fs)
    then (Raise duplicate, Some (init_file fs))
    else (Item.validate (apply_fields u r),
          Some (to_csv (l1 ++ apply_fields u r :: l2))).
Proof.
  intros Ht Hr Hl1. unfold update_item, update_conflict.
  rewrite bind_read_csv. rewrite Ht.
  destruct (l1 ++ r :: l2) as [|x0 rest0] eqn:Hdf; [now destruct l1|].
  cbn [empty]. rewrite <- Hdf.
  destruct (index_from_first (fun x => Row.id x =? item_id) l1 l2 r 0)
    as [rest E].
  { intros x Hx. apply Z.eqb_neq. now apply Hl1. }
  { now apply Z.eqb_eq. }
  unfold index. rewrite E. simpl Nat.add.
  unfold bind at 1.
  destruct (truthy (ItemUpdate.codice_fiscale u)); cbn [andb].
  - destruct (filter _ (l1 ++ r :: l2)); cbn [empty negb]; unfold ret, raise.
    + unfold bind, write_csv, df_to_csv. rewrite assign_all.
      rewrite nth_error_middle. reflexivity.
    + reflexivity.
  - unfold ret, bind, write_csv, df_to_csv. rewrite assign_all.
    rewrite nth_error_middle. reflexivity.
Qed.

End UpdateEquations.

Lemma first_with_id (item_id : Z) (df : DataFrame) :
  In item_id (map Row.id df) ->
  exists l1 r l2,
    df = l1 ++ r :: l2 /\ Row.id r = item_id
    /\ forall x, In x l1 -> Row.id x <> item_id.
Proof.
  intros Hin.
  destruct (index_from 0 (fun x => Row.id x =? item_id) df) as [|idx rest] eqn:E.
  - apply in_map_iff in Hin. destruct Hin as (x & Hx & Hin).
    pose proof (proj1 (index_from_nil _ _ _) E x Hin) as H.
    apply Z.eqb_neq in H. contradiction.
  - destruct (index_from_split _ _ _ _ _ E) as (l1 & r & l2 & -> & _ & Hr & Hl1).
    exists l1, r, l2. repeat split; [now apply Z.eqb_eq|].
    intros x Hx. apply Z.eqb_neq. now apply Hl1.
Qed.

(** ** Properties of the handlers *)

Section Properties.
Context {csv : Csv}.

(** C7.  For an id that no row of the table has (the empty table
    included), [get_item], [update_item] and [delete_item] each raise
    [HTTPException 404 "Item not found"] and write nothing: the file is
    the one [init_csv] left, so the table read afterwards is the same. *)
Theorem absent_id_not_found (fs : FS) (item_id : Z) (u : ItemUpdate.t) :
  ~ In item_id (map Row.id (table fs)) ->
  get_item item_id fs
  = (Raise (HTTPException 404 "Item not found"), Some (init_file fs))
  /\ update_item item_id u fs
     = (Raise (HTTPException 404 "Item not found"), Some (init_file fs))
  /\ delete_item item_id fs
     = (Raise (HTTPException 404 "Item not found"), Some (init_file fs))
  /\ table (Some (init_file fs)) = table fs.
Proof.
  intros Hnot.
  assert (E : filter (fun r => Row.id r =? item_id) (table fs) = []).
  { apply filter_nil_iff. intros x Hx. apply Z.eqb_neq. intros <-.
    apply Hnot. now apply in_map. }
  repeat split.
  - rewrite get_item_eq, E. reflexivity.
  - now apply update_item_absent.
  - rewrite delete_item_eq, E. reflexivity.
Qed.

(** X21.  When some row of the frame [create_item] reads holds the fiscal
    code of the request as a text cell, [create_item] raises
    [HTTPException 400] and the file is the one it read: nothing is
    written, and the frame read afterwards is the same. *)
Theorem create_duplicate_rejected (fs : FS) (item : ItemCreate.t) (r : Row.t) :
  In r (table fs) ->
  Row.codice_fiscale r = VStr (ItemCreate.codice_fiscale item) ->
  create_item item fs
  = (Raise (HTTPException 400 "Codice fiscale already exists"),
     Some (init_file fs))
  /\ table (Some (init_file fs)) = table fs
  /\ (forall f, fs = Some f -> snd (create_item item fs) = fs).
Proof.
  intros Hin Hcf. rewrite create_item_eq.
  rewrite (isin_true _ _ _ Hin Hcf). repeat split.
  intros f ->. reflexivity.
Qed.

(** C3.  When no row holds the fiscal code of the request, [create_item]
    returns the record made of the supplied fields and the new id, and
    writes the table with that record's row appended last.  The new id is
    1 on an empty table and otherwise one more than the greatest id in the
    table, whatever ids below it are missing: after ids 1 and 3 it is 4. *)
Theorem create_assigns_max_plus_one (fs : FS) (item : ItemCreate.t) :
  (forall r, In r (table fs) ->
             Row.codice_fiscale r <> VStr (ItemCreate.codice_fiscale item)) ->
  exists new_id : Z,
    create_item item fs
    = (Return (Item.mk new_id (ItemCreate.nome item) (ItemCreate.cognome item)
                 (ItemCreate.codice_fiscale item)),
       Some (to_csv
               (table fs
                ++ [Row.mk new_id (VStr (ItemCreate.nome item))
                      (VStr (ItemCreate.cognome item))
                      (VStr (ItemCreate.codice_fiscale item))])))
    /\ (table fs = [] -> new_id = 1)
    /\ (forall m, is_max m (map Row.id (table fs)) -> new_id = m + 1)
    /\ (table fs <> [] -> exists m, is_max m (map Row.id (table fs)))
    /\ (map Row.id (table fs) = [1; 3] -> new_id = 4).
Proof.
  intros Hfree. rewrite create_item_eq. rewrite (isin_false _ _ Hfree).
  cbv zeta.
  assert (Hmax : forall m, is_max m (map Row.id (table fs)) ->
                 match table fs with [] => 1 | r :: rest => id_max r rest + 1 end
                 = m + 1).
  { intros m Hm. destruct (table fs) as [|r rest].
    - destruct Hm as [[] _].
    - f_equal. eapply is_max_unique; [apply id_max_is_max|exact Hm]. }
  eexists. split; [reflexivity|]. repeat split.
  - intros ->. reflexivity.
  - exact Hmax.
  - destruct (table fs) as [|r rest]; [congruence|]. intros _.
    eexists. apply id_max_is_max.
  - intros E. rewrite (Hmax 3); [reflexivity|]. rewrite E. split.
    + simpl. tauto.
    + intros x [<-|[<-|[]]]; lia.
Qed.

(** C8.  A successful [update_item] rewrites the table with one row
    changed in place: the first row with that id, in which each supplied
    field replaces the cell, each absent field keeps it, and the id stays.
    The rows before and after it, their order and their number are as they
    were, and the record returned is the changed row.  With no field
    supplied the call returns the record as it was and writes the table
    unchanged. *)
Theorem update_changes_one_row (fs : FS) (item_id : Z) (u : ItemUpdate.t) :
  (forall (i : Item.t) (fs' : FS),
      update_item item_id u fs = (Return i, fs') ->
      exists l1 r l2,
        table fs = l1 ++ r :: l2
        /\ Row.id r = item_id
        /\ (forall x, In x l1 -> Row.id x <> item_id)
        /\ fs' = Some (to_csv (l1 ++ apply_fields u r :: l2))
        /\ Item.to_row i = apply_fields u r
        /\ Item.id i = item_id
        /\ List.length (l1 ++ apply_fields u r :: l2)
           = List.length (table fs))
  /\ (forall l1 (j : Item.t) l2,
        table fs = l1 ++ Item.to_row j :: l2 ->
        Item.id j = item_id ->
        (forall x, In x l1 -> Row.id x <> item_id) ->
        update_item item_id no_fields fs
        = (Return j, Some (to_csv (table fs)))).
Proof.
  split.
  - intros i fs' H.
    destruct (in_dec Z.eq_dec item_id (map Row.id (table fs))) as [Hin|Hnot].
    2:{ rewrite (update_item_absent _ _ _ Hnot) in H. discriminate. }
    destruct (first_with_id _ _ Hin) as (l1 & r & l2 & Ht & Hr & Hl1).
    rewrite (update_item_present _ _ _ _ _ _ Ht Hr Hl1) in H.
    destruct (update_conflict item_id u (table fs)); [discriminate|].
    injection H as Hv <-.
    apply validate_inv in Hv.
    exists l1, r, l2. repeat split; try assumption.
    + rewrite <- Hr. change (Row.id r) with (Row.id (apply_fields u r)).
      rewrite <- Hv. reflexivity.
    + rewrite Ht. rewrite !length_app. reflexivity.
  - intros l1 j l2 Ht Hj Hl1.
    rewrite (update_item_present _ _ _ _ _ _ Ht Hj Hl1).
    unfold update_conflict. cbn [no_fields ItemUpdate.codice_fiscale truthy andb].
    rewrite apply_no_fields, validate_to_row, Ht. reflexivity.
Qed.


(** C10.  When the update supplies the empty string as fiscal code and the
    id is in the table, [update_item] never raises the duplicate error,
    whatever the other rows hold: it writes the table with the empty string
    assigned to the first row with that id (and the other supplied fields),
    and returns that row's record as soon as its name cells are text. *)
Theorem update_empty_fiscal_code_unchecked (fs : FS) (item_id : Z)
  (u : ItemUpdate.t) :
  In item_id (map Row.id (table fs)) ->
  ItemUpdate.codice_fiscale u = Some "" ->
  exists l1 r l2,
    table fs = l1 ++ r :: l2
    /\ Row.id r = item_id
    /\ (forall x, In x l1 -> Row.id x <> item_id)
    /\ update_item item_id u fs
       = (Item.validate (apply_fields u r),
          Some (to_csv (l1 ++ apply_fields u r :: l2)))
    /\ Row.codice_fiscale (apply_fields u r) = VStr ""
    /\ fst (update_item item_id u fs)
       <> Raise (HTTPException 400 "Codice fiscale already exists")
    /\ (forall n c,
          Row.nome (apply_fields u r) = VStr n ->
          Row.cognome (apply_fields u r) = VStr c ->
          fst (update_item item_id u fs) = Return (Item.mk item_id n c "")).
Proof.
  intros Hin Hcf.
  destruct (first_with_id _ _ Hin) as (l1 & r & l2 & Ht & Hr & Hl1).
  exists l1, r, l2.
  assert (E : update_item item_id u fs
              = (Item.validate (apply_fields u r),
                 Some (to_csv (l1 ++ apply_fields u r :: l2)))).
  { rewrite (update_item_present _ _ _ _ _ _ Ht Hr Hl1).
    unfold update_conflict. rewrite Hcf. reflexivity. }
  assert (Hcell : Row.codice_fiscale (apply_fields u r) = VStr "").
  { unfold apply_fields. cbn [Row.codice_fiscale]. now rewrite Hcf. }
  repeat split; try assumption.
  - rewrite E. cbn [fst]. unfold Item.validate.
    destruct (Row.nome (apply_fields u r)), (Row.cognome (apply_fields u r)),
      (Row.codice_fiscale (apply_fields u r)); discriminate.
  - intros n c Hn Hc. rewrite E. cbn [fst]. unfold Item.validate.
    rewrite Hn, Hc, Hcell. cbn [apply_fields Row.id]. now rewrite Hr.
Qed.

End Properties.

(** ** The handlers on tables of records *)

Lemma frame_of_app (t1 t2 : list Item.t) :
  frame_of (t1 ++ t2) = frame_of t1 ++ frame_of t2.
Proof. apply map_app. Qed.

Lemma isin_frame_of (s : string) (t : list Item.t) :
  isin s (map Row.codice_fiscale (frame_of t)) = has_cf s t.
Proof.
  unfold isin, has_cf, frame_of. induction t as [|i t IH]; [reflexivity|].
  cbn [map existsb]. now rewrite IH.
Qed.

Lemma next_id_frame_of (t : list Item.t) :
  match frame_of t with [] => 1 | r :: rest => id_max r rest + 1 end
  = next_id t.
Proof.
  destruct t as [|i rest]; [reflexivity|].
  unfold frame_of, next_id, id_max. cbn [map Item.to_row Row.id].
  rewrite map_map. reflexivity.
Qed.

Lemma to_row_apply_item (u : ItemUpdate.t) (i : Item.t) :
  Item.to_row (apply_item u i) = apply_fields u (Item.to_row i).
Proof. destruct u as [[n|] [c|] [cf|]]; destruct i; reflexivity. Qed.

Lemma update_first_frame_of (item_id : Z) (u : ItemUpdate.t) (t : list Item.t)
  (l1 l2 : DataFrame) (r : Row.t) :
  frame_of t = l1 ++ r :: l2 -> Row.id r = item_id ->
  (forall x, In x l1 -> Row.id x <> item_id) ->
  l1 ++ apply_fields u r :: l2
  = frame_of (update_first item_id (apply_item u) t).
Proof.
  revert l1. induction t as [|i t IH]; intros l1 Ht Hr Hl1.
  - destruct l1; discriminate.
  - destruct l1 as [|x l1]; cbn [frame_of map app] in Ht; injection Ht as Hx Ht.
    + subst r. cbn [Item.to_row Row.id] in Hr. cbn [update_first].
      rewrite Hr, Z.eqb_refl. cbn [frame_of map app].
      now rewrite to_row_apply_item, Ht.
    + assert (Hne : Item.id i <> item_id).
      { specialize (Hl1 x (or_introl eq_refl)). now subst x. }
      cbn [update_first]. apply Z.eqb_neq in Hne. rewrite Hne.
      unfold frame_of. cbn [map]. rewrite <- app_comm_cons, Hx. f_equal.
      apply (IH l1); [exact Ht|exact Hr|intros; apply Hl1; now right].
Qed.

Lemma empty_filter {A : Type} (p : A -> bool) (l : list A) :
  negb (empty (filter p l)) = existsb p l.
Proof.
  induction l as [|a l IH]; [reflexivity|].
  cbn [filter existsb]. destruct (p a); [reflexivity|exact IH].
Qed.

Lemma update_conflict_frame_of (item_id : Z) (u : ItemUpdate.t)
  (t : list Item.t) :
  update_conflict item_id u (frame_of t) = conflict item_id u t.
Proof.
  unfold update_conflict, conflict. f_equal. rewrite empty_filter.
  unfold frame_of. induction t as [|i t IH]; [reflexivity|].
  cbn [map existsb]. now rewrite IH.
Qed.

Lemma filter_frame_of (p : Row.t -> bool) (t : list Item.t) :
  filter p (frame_of t) = frame_of (filter (fun i => p (Item.to_row i)) t).
Proof.
  unfold frame_of. induction t as [|i t IH]; [reflexivity|].
  cbn [map filter]. destruct (p (Item.to_row i)); cbn [map]; now rewrite IH.
Qed.

Lemma has_id_frame_of (item_id : Z) (t : list Item.t) :
  has_id item_id t = true <-> In item_id (map Row.id (frame_of t)).
Proof.
  unfold has_id, frame_of. rewrite map_map. cbn [Item.to_row Row.id].
  rewrite existsb_exists, in_map_iff. split.
  - intros (i & Hi & E). exists i. split; [now apply Z.eqb_eq|exact Hi].
  - intros (i & E & Hi). exists i. split; [exact Hi|now apply Z.eqb_eq].
Qed.

Section Refinement.
Context {csv : Csv}.
Variable safe : string -> bool.
Hypothesis Hrb : reads_back safe.

Lemma safe_next_table (o : op) (t : list Item.t) :
  forallb (safe_item safe) t = true -> safe_op safe o = true ->
  forallb (safe_item safe) (next_table o t) = true.
Proof.
  intros Ht Ho. destruct o as [item| |j|j u|j|]; cbn [next_table]; try exact Ht.
  - destruct (has_cf _ t); [exact Ht|].
    rewrite forallb_app, Ht. cbn [forallb]. unfold safe_item.
    cbn [Item.nome Item.cognome Item.codice_fiscale]. cbn [safe_op] in Ho.
    now rewrite Ho.
  - destruct (has_id j t && negb (conflict j u t)); [|exact Ht].
    clear Hrb. induction t as [|i t IH]; [reflexivity|].
    cbn [forallb] in Ht. apply andb_true_iff in Ht. destruct Ht as [Hi Ht].
    cbn [update_first]. destruct (Item.id i =? j); cbn [forallb].
    + rewrite Ht, andb_true_r. cbn [safe_op] in Ho.
      unfold safe_item in *. unfold apply_item.
      cbn [Item.nome Item.cognome Item.codice_fiscale].
      apply andb_true_iff in Ho. destruct Ho as [Ho Hcf].
      apply andb_true_iff in Ho. destruct Ho as [Hn Hc].
      apply andb_true_iff in Hi. destruct Hi as [Hi Hicf].
      apply andb_true_iff in Hi. destruct Hi as [Hin Hic].
      destruct (ItemUpdate.nome u), (ItemUpdate.cognome u),
        (ItemUpdate.codice_fiscale u); cbn [safe_opt] in *;
        repeat (apply andb_true_iff; split); assumption.
    + now rewrite Hi, IH.
  - apply forallb_forall. intros i Hi. apply filter_In in Hi.
    destruct Hi as [Hi _]. revert i Hi. now apply forallb_forall.
Qed.

(** A call takes the table of the state to the table [next_table] gives. *)
Lemma table_exec (o : op) (fs : FS) (t : list Item.t) :
  table fs = frame_of t ->
  forallb (safe_item safe) t = true -> safe_op safe o = true ->
  table (exec o fs) = frame_of (next_table o t).
Proof.
  intros Ht Hs Ho.
  pose proof (safe_next_table o t Hs Ho) as Hs'.
  destruct o as [item| |j|j u|j|]; cbn [exec next_table] in *.
  - rewrite create_item_eq, Ht, isin_frame_of.
    destruct (has_cf _ t); cbn [snd]; [exact Ht|].
    rewrite next_id_frame_of. cbv zeta. cbn [snd].
    change (frame_of t ++ [Item.to_row ?i]) with (frame_of t ++ frame_of [i]).
    rewrite <- frame_of_app. unfold table. cbn [init_file].
    now apply Hrb.
  - rewrite get_all_items_eq. exact Ht.
  - rewrite get_item_eq. exact Ht.
  - destruct (has_id j t) eqn:Hj; cbn [andb] in *.
    + apply has_id_frame_of in Hj. rewrite <- Ht in Hj.
      destruct (first_with_id _ _ Hj) as (l1 & r & l2 & Hdf & Hr & Hl1).
      rewrite (update_item_present _ _ _ _ _ _ Hdf Hr Hl1).
      rewrite Ht, update_conflict_frame_of.
      destruct (conflict j u t); cbn [negb snd] in *; [exact Ht|].
      rewrite Ht in Hdf.
      rewrite (update_first_frame_of _ u _ _ _ _ Hdf Hr Hl1).
      unfold table. cbn [init_file]. now apply Hrb.
    + rewrite update_item_absent; [exact Ht|].
      rewrite Ht. intros Hin. apply has_id_frame_of in Hin. congruence.
  - rewrite delete_item_eq, Ht.
    destruct (filter (fun r => Row.id r =? j) (frame_of t)) eqn:E; cbn [snd].
    + rewrite table_init, Ht. f_equal. symmetry.
      rewrite filter_frame_of in E. cbn [Item.to_row Row.id] in E.
      apply map_eq_nil in E.
      clear - E. induction t as [|i t IH]; [reflexivity|].
      cbn [filter] in *. destruct (Item.id i =? j); [discriminate|].
      cbn [negb]. f_equal. now apply IH.
    + rewrite filter_frame_of. cbn [Item.to_row Row.id].
      unfold table. cbn [init_file]. now apply Hrb.
  - rewrite get_items_count_eq. exact Ht.
Qed.

Lemma table_run (ops : list op) (fs : FS) (t : list Item.t) :
  table fs = frame_of t ->
  forallb (safe_item safe) t = true ->
  forallb (safe_op safe) ops = true ->
  table (run ops fs) = frame_of (fold_left (fun t o => next_table o t) ops t)
  /\ forallb (safe_item safe) (fold_left (fun t o => next_table o t) ops t)
     = true.
Proof.
  revert fs t. induction ops as [|o ops IH]; intros fs t Ht Hs Ho.
  - now split.
  - cbn [forallb] in Ho. apply andb_true_iff in Ho. destruct Ho as [Ho Hops].
    cbn [run fold_left]. apply IH; [|now apply safe_next_table|exact Hops].
    now apply table_exec.
Qed.

End Refinement.

(** ** Invariants of the table of records *)

Lemma next_id_gt (t : list Item.t) (i : Item.t) :
  In i t -> Item.id i < next_id t.
Proof.
  destruct t as [|a rest]; intros Hin; [destruct Hin|].
  unfold next_id.
  destruct (fold_max_spec (map Item.id rest) (Item.id a)) as (_ & Hge & Hle).
  destruct Hin as [<-|Hin]; [lia|].
  specialize (Hle _ (in_map Item.id _ _ Hin)). lia.
Qed.






Lemma map_id_update_first (item_id : Z) (u : ItemUpdate.t) (t : list Item.t) :
  map Item.id (update_first item_id (apply_item u) t) = map Item.id t.
Proof.
  induction t as [|i t IH]; [reflexivity|].
  cbn [update_first]. destruct (Item.id i =? item_id); cbn [map].
  - reflexivity.
  - now rewrite IH.
Qed.

(** Dropping records keeps a key that was distinct distinct. *)
Lemma filter_keeps_distinct {K : Type} (key : Item.t -> K)
  (keep : Item.t -> bool) (t : list Item.t) (Ht : NoDup (map key t)) :
  NoDup (map key (filter keep t)).
Proof.
  induction t as [|i t IH]; [exact Ht|].
  cbn [map] in Ht. inversion Ht as [|? ? Hnot Hnd]; subst.
  cbn [filter]. destruct (keep i); [|now apply IH].
  cbn [map]. constructor; [|now apply IH].
  intros Hin. apply Hnot. apply in_map_iff in Hin.
  destruct Hin as (x & <- & Hx). apply filter_In in Hx. apply in_map. tauto.
Qed.

(** Every call keeps the ids of the table distinct. *)
Lemma ids_distinct_next_table (o : op) (t : list Item.t) :
  NoDup (map Item.id t) -> NoDup (map Item.id (next_table o t)).
Proof.
  intros Hnd. destruct o as [item| |j|j u|j|]; cbn [next_table]; try exact Hnd.
  - destruct (has_cf _ t); [exact Hnd|].
    rewrite map_app. cbn [map Item.id].
    apply NoDup_app; [exact Hnd|constructor; [intros []|constructor]|].
    intros x Hx [<-|[]]. apply in_map_iff in Hx. destruct Hx as (i & E & Hi).
    pose proof (next_id_gt t i Hi). lia.
  - destruct (has_id j t && negb (conflict j u t)); [|exact Hnd].
    now rewrite map_id_update_first.
  - now apply filter_keeps_distinct.
Qed.

Section RoundTrip.
Context {csv : Csv}.
Variable safe : string -> bool.
Hypothesis Hrb : reads_back safe.

(** X4.  From a fresh store, whatever calls are made with [safe] texts, the
    table is a table of records with distinct ids. *)
Theorem reachable_ids_distinct (ops : list op) (fs : FS) :
  table fs = [] ->
  forallb (safe_op safe) ops = true ->
  exists t, table (run ops fs) = frame_of t /\ NoDup (map Item.id t).
Proof.
  intros Ht Hops.
  destruct (table_run safe Hrb ops fs [] Ht eq_refl Hops) as [E _].
  eexists. split; [exact E|].
  clear E Hops. generalize (NoDup_nil Z).
  change (@nil Z) with (map Item.id []). generalize (@nil Item.t) as t.
  induction ops as [|o ops IH]; intros t Hnd; [exact Hnd|].
  cbn [fold_left]. apply IH. now apply ids_distinct_next_table.
Qed.


End RoundTrip.

(** ** The duplicate rule and the uniqueness of fiscal codes *)

Lemma eq_str_true (v : value) (s : string) : eq_str v s = true <-> v = VStr s.
Proof.
  destruct v as [s'| |z]; cbn [eq_str]; try (split; discriminate).
  rewrite String.eqb_eq. split; [now intros ->|now intros [= ->]].
Qed.

Lemma update_conflict_true (item_id : Z) (u : ItemUpdate.t) (df : DataFrame) :
  update_conflict item_id u df = true
  <-> exists cf x,
        ItemUpdate.codice_fiscale u = Some cf /\ cf <> ""
        /\ In x df /\ Row.codice_fiscale x = VStr cf /\ Row.id x <> item_id.
Proof.
  unfold update_conflict. rewrite empty_filter, andb_true_iff, existsb_exists.
  split.
  - intros (Htruthy & x & Hx & Hp).
    destruct (ItemUpdate.codice_fiscale u) as [cf|]; [|discriminate].
    apply andb_true_iff in Hp. destruct Hp as [Heq Hid].
    exists cf, x. repeat split.
    + intros ->. discriminate.
    + exact Hx.
    + now apply eq_str_true.
    + apply negb_true_iff in Hid. now apply Z.eqb_neq.
  - intros (cf & x & Hu & Hne & Hx & Hcf & Hid). rewrite Hu. split.
    + cbn [truthy]. apply negb_true_iff. now apply String.eqb_neq.
    + exists x. split; [exact Hx|]. apply andb_true_iff. split.
      * now apply eq_str_true.
      * apply negb_true_iff. now apply Z.eqb_neq.
Qed.

Lemma validate_not_http (d : Row.t) (code : Z) (detail : string) :
  Item.validate d <> Raise (HTTPException code detail).
Proof.
  unfold Item.validate.
  destruct (Row.nome d), (Row.cognome d), (Row.codice_fiscale d); discriminate.
Qed.

Lemma In_cf_update_first (item_id : Z) (u : ItemUpdate.t) (c x : string)
  (t : list Item.t) :
  ItemUpdate.codice_fiscale u = Some c ->
  In x (map Item.codice_fiscale (update_first item_id (apply_item u) t)) ->
  x = c \/ In x (map Item.codice_fiscale t).
Proof.
  intros Hu. induction t as [|i t IH]; [intros []|].
  cbn [update_first]. destruct (Item.id i =? item_id); cbn [map].
  - intros [<-|Hin].
    + left. unfold apply_item. cbn [Item.codice_fiscale]. now rewrite Hu.
    + right. now right.
  - intros [<-|Hin]; [right; now left|].
    destruct (IH Hin) as [->|H]; [now left|right; now right].
Qed.

Lemma map_cf_update_first_none (item_id : Z) (u : ItemUpdate.t)
  (t : list Item.t) :
  ItemUpdate.codice_fiscale u = None ->
  map Item.codice_fiscale (update_first item_id (apply_item u) t)
  = map Item.codice_fiscale t.
Proof.
  intros Hu. induction t as [|i t IH]; [reflexivity|].
  cbn [update_first]. destruct (Item.id i =? item_id); cbn [map].
  - unfold apply_item. cbn [Item.codice_fiscale]. now rewrite Hu.
  - now rewrite IH.
Qed.

Lemma unique_cf_update_first (item_id : Z) (u : ItemUpdate.t) (c : string)
  (t : list Item.t) :
  ItemUpdate.codice_fiscale u = Some c ->
  NoDup (map Item.id t) -> NoDup (map Item.codice_fiscale t) ->
  (forall i, In i t -> Item.codice_fiscale i = c -> Item.id i = item_id) ->
  NoDup (map Item.codice_fiscale (update_first item_id (apply_item u) t)).
Proof.
  intros Hu. induction t as [|i t IH]; intros Hid Hcf Hown; [constructor|].
  cbn [map] in Hid, Hcf.
  inversion Hid as [|? ? Hid1 Hid2]; subst.
  inversion Hcf as [|? ? Hcf1 Hcf2]; subst.
  cbn [update_first]. destruct (Z.eqb_spec (Item.id i) item_id) as [E|Hne].
  - cbn [map]. constructor; [|exact Hcf2].
    unfold apply_item. cbn [Item.codice_fiscale]. rewrite Hu.
    intros Hin. apply in_map_iff in Hin. destruct Hin as (k & Hk & Hin).
    apply Hid1. rewrite E, <- (Hown k (or_intror Hin) Hk). now apply in_map.
  - cbn [map]. constructor.
    + intros Hin. destruct (In_cf_update_first _ _ _ _ _ Hu Hin) as [E|H].
      * apply Hne. now apply Hown; [left|].
      * now apply Hcf1.
    + apply IH; [exact Hid2|exact Hcf2|]. intros k Hk. apply Hown. now right.
Qed.

Lemma conflict_false (item_id : Z) (u : ItemUpdate.t) (c : string)
  (t : list Item.t) :
  ItemUpdate.codice_fiscale u = Some c -> c <> "" ->
  conflict item_id u t = false ->
  forall i, In i t -> Item.codice_fiscale i = c -> Item.id i = item_id.
Proof.
  intros Hu Hne Hconf i Hi Hc. unfold conflict in Hconf. rewrite Hu in Hconf.
  cbn [truthy] in Hconf.
  apply String.eqb_neq in Hne. rewrite Hne in Hconf. cbn [negb andb] in Hconf.
  destruct (Z.eqb_spec (Item.id i) item_id) as [E|Hid]; [exact E|].
  assert (H : existsb
                (fun k =>
                   eq_opt (VStr (Item.codice_fiscale k)) (Some c)
                   && negb (Item.id k =? item_id)) t = true).
  { apply existsb_exists. exists i. split; [exact Hi|].
    cbn [eq_opt eq_str]. rewrite Hc, String.eqb_refl.
    apply Z.eqb_neq in Hid. now rewrite Hid. }
  congruence.
Qed.

(** A call other than an update to the empty fiscal code keeps the fiscal
    codes of a table with distinct ids distinct. *)
Lemma unique_cf_next_table (o : op) (t : list Item.t) :
  NoDup (map Item.id t) -> NoDup (map Item.codice_fiscale t) ->
  (forall j u, o = Update j u -> ItemUpdate.codice_fiscale u <> Some "") ->
  NoDup (map Item.codice_fiscale (next_table o t)).
Proof.
  intros Hid Hcf Hne.
  destruct o as [item| |j|j u|j|]; cbn [next_table]; try exact Hcf.
  - destruct (has_cf (ItemCreate.codice_fiscale item) t) eqn:E; [exact Hcf|].
    rewrite map_app. cbn [map Item.codice_fiscale].
    apply NoDup_app; [exact Hcf|constructor; [intros []|constructor]|].
    intros x Hx [<-|[]]. apply in_map_iff in Hx. destruct Hx as (i & Hi & Hin).
    assert (H : has_cf (ItemCreate.codice_fiscale item) t = true).
    { apply existsb_exists. exists i. split; [exact Hin|]. now apply String.eqb_eq. }
    congruence.
  - destruct (has_id j t && negb (conflict j u t)) eqn:E; [|exact Hcf].
    apply andb_true_iff in E. destruct E as [_ E]. apply negb_true_iff in E.
    destruct (ItemUpdate.codice_fiscale u) as [c|] eqn:Hu.
    + apply (unique_cf_update_first _ _ c); try assumption.
      apply (conflict_false j u c t Hu); [|exact E].
      intros ->. now apply (Hne j u).
    + now rewrite map_cf_update_first_none.
  - now apply filter_keeps_distinct.
Qed.

Section Uniqueness.
Context {csv : Csv}.
Variable safe : string -> bool.
Hypothesis Hrb : reads_back safe.

(** X3.  With a reader that returns tables of [safe] texts as written: on
    a table of records with [safe] texts, distinct ids and distinct fiscal
    codes, every call with [safe] texts, except an update that supplies the
    empty string as fiscal code, leaves a table of records with distinct
    ids and distinct fiscal codes. *)
Theorem fiscal_codes_stay_unique (fs : FS) (t : list Item.t) (o : op) :
  table fs = frame_of t ->
  forallb (safe_item safe) t = true ->
  safe_op safe o = true ->
  NoDup (map Item.id t) ->
  NoDup (map Item.codice_fiscale t) ->
  (forall j u, o = Update j u -> ItemUpdate.codice_fiscale u <> Some "") ->
  exists t',
    table (exec o fs) = frame_of t'
    /\ NoDup (map Item.id t')
    /\ NoDup (map Item.codice_fiscale t').
Proof.
  intros Ht Hs Ho Hid Hcf Hne. exists (next_table o t). repeat split.
  - now apply (table_exec safe Hrb).
  - now apply ids_distinct_next_table.
  - now apply unique_cf_next_table.
Qed.

End Uniqueness.

(** X2.  The duplicate rule of [update_item]: on an id that is in the table the
    call raises [HTTPException 400] exactly when the supplied fiscal code is
    a non-empty text held by a row with another id; a code held only by the
    row itself is no conflict. *)
Theorem update_duplicate_rule {csv : Csv} (fs : FS) (item_id : Z)
  (u : ItemUpdate.t) :
  In item_id (map Row.id (table fs)) ->
  fst (update_item item_id u fs)
  = Raise (HTTPException 400 "Codice fiscale already exists")
  <-> exists cf x,
        ItemUpdate.codice_fiscale u = Some cf /\ cf <> ""
        /\ In x (table fs) /\ Row.codice_fiscale x = VStr cf
        /\ Row.id x <> item_id.
Proof.
  intros Hin.
  destruct (first_with_id _ _ Hin) as (l1 & r & l2 & Ht & Hr & Hl1).
  rewrite (update_item_present _ _ _ _ _ _ Ht Hr Hl1).
  rewrite <- update_conflict_true.
  destruct (update_conflict item_id u (table fs)); cbn [fst].
  - split; reflexivity.
  - split; [|discriminate]. intros H. now apply validate_not_http in H.
Qed.

(** ** The reader with missing-value markers *)

Lemma read_write_field (s : string) :
  not_na s = true -> read_field (write_field (VStr s)) = VStr s.
Proof.
  unfold not_na, read_field. cbn [write_field]. intros H.
  apply negb_true_iff in H. now rewrite H.
Qed.

Lemma PandasNA_reads_back : @reads_back PandasNA not_na.
Proof.
  intros t Ht. cbn [pd_read_csv to_csv PandasNA].
  unfold frame_of. induction t as [|i t IH]; [reflexivity|].
  cbn [forallb] in Ht. apply andb_true_iff in Ht. destruct Ht as [Hi Ht].
  cbn [map]. rewrite (IH Ht). f_equal.
  unfold safe_item in Hi.
  apply andb_true_iff in Hi. destruct Hi as [Hi Hcf].
  apply andb_true_iff in Hi. destruct Hi as [Hn Hc].
  destruct i as [k n c cf]. cbn [Item.nome Item.cognome Item.codice_fiscale] in *.
  unfold Item.to_row, write_line, read_line.
  cbn [Row.id Row.nome Row.cognome Row.codice_fiscale Item.id Item.nome
       Item.cognome Item.codice_fiscale].
  now rewrite !read_write_field.
Qed.

(** ** The handlers on sample stores *)

(** C2.  [GET /items/count] never reaches [get_items_count]: the route
    [/items/{item_id}] is registered before [/items/count] and matches the
    path with [item_id = "count"], which is not an [int], so the response
    is 422 and the store is not read, whatever the table.  The handler
    itself, when called, returns the number of rows. *)
Theorem count_route_is_shadowed {csv : Csv} (fs : FS)
  (body : option json_object) :
  app (mkRequest GET "/items/count" body) fs
  = (mkResponse 422 JsonValidationErrors, fs)
  /\ first_full routes GET "/items/count"
     = Some (mkRoute GET (WithParam "/items/" "item_id") Ep_get_item, ["count"])
  /\ parse_int "count" = None
  /\ get_items_count fs
     = (Return (Z.of_nat (List.length (table fs))), Some (init_file fs)).
Proof.
  repeat split. apply get_items_count_eq.
Qed.

(** C6.  [PUT /items/1] with the empty string as fiscal code is answered
    200 although record 2 holds the empty fiscal code: the duplicate test
    is skipped for a falsy value and the assignment is not.  This is so
    with the reader that returns what was written and with the reader that
    makes the empty field a missing value. *)
Theorem update_to_held_empty_code_accepted :
  app (csv := Mem)
    (mkRequest PUT "/items/1" (Some [("codice_fiscale", JString "")]))
    (Some (frame_of [Item.mk 1 "Mario" "Rossi" "RSSMRA80A01H501U";
                     Item.mk 2 "Luigi" "Verdi" ""]))
  = (mkResponse 200 (JsonItem (Item.mk 1 "Mario" "Rossi" "")),
     Some (frame_of [Item.mk 1 "Mario" "Rossi" "";
                     Item.mk 2 "Luigi" "Verdi" ""]))
  /\ app (csv := PandasNA)
       (mkRequest PUT "/items/1" (Some [("codice_fiscale", JString "")]))
       (Some [(1, "Mario", "Rossi", "RSSMRA80A01H501U");
              (2, "Luigi", "Verdi", "")])
     = (mkResponse 200 (JsonItem (Item.mk 1 "Mario" "Rossi" "")),
        Some [(1, "Mario", "Rossi", ""); (2, "Luigi", "Verdi", "")]).
Proof.
  split; reflexivity.
Qed.

(** C1.  Two creates with distinct fiscal codes, the second the empty
    string, leave a table without a shared fiscal code; [update_item] on
    record 1 with the empty string then returns normally and leaves a
    table in which records 1 and 2 share the fiscal code. *)
Theorem uniqueness_broken_by_empty_update :
  (unique_cf (table (run (csv := Mem) [Create mario; Create nobody] None))
   /\ fst (update_item 1 clear_cf
             (run (csv := Mem) [Create mario; Create nobody] None))
      = Return (Item.mk 1 "Mario" "Rossi" "")
   /\ table (run (csv := Mem)
               [Create mario; Create nobody; Update 1 clear_cf] None)
      = frame_of [Item.mk 1 "Mario" "Rossi" ""; Item.mk 2 "Luigi" "Verdi" ""]
   /\ ~ unique_cf
          (table (run (csv := Mem)
                    [Create mario; Create nobody; Update 1 clear_cf] None)))
  /\ (unique_cf
        (table (run (csv := PandasNA) [Create mario; Create nobody] None))
      /\ fst (update_item 1 clear_cf
                (run (csv := PandasNA) [Create mario; Create nobody] None))
         = Return (Item.mk 1 "Mario" "Rossi" "")
      /\ run (csv := PandasNA)
           [Create mario; Create nobody; Update 1 clear_cf] None
         = Some [(1, "Mario", "Rossi", ""); (2, "Luigi", "Verdi", "")]
      /\ ~ unique_cf
             (table (run (csv := PandasNA)
                       [Create mario; Create nobody; Update 1 clear_cf] None))).
Proof.
  split; (split; [|split; [reflexivity|split; [reflexivity|]]]).
  - unfold unique_cf. vm_compute.
    constructor; [intros [H|[]]; discriminate|].
    constructor; [intros []|constructor].
  - unfold unique_cf. vm_compute. intros H. inversion H as [|? ? Hnot _]; subst.
    apply Hnot. now left.
  - unfold unique_cf. vm_compute.
    constructor; [intros [H|[]]; discriminate|].
    constructor; [intros []|constructor].
  - unfold unique_cf. vm_compute. intros H. inversion H as [|? ? Hnot _]; subst.
    apply Hnot. now left.
Qed.

(** C5.  A fiscal code that is one of the reader's missing-value markers
    is accepted twice: after [POST /items/] stored a record with the
    fiscal code "NA", the frame read from the file has a missing value in
    that cell, so the test of [create_item] finds no equal text and a
    second [POST /items/] with the fiscal code "NA" is answered 200, not
    400, and the file is rewritten: a second row with that code is
    appended, and the first row's code, read as a missing value, is
    written back as the empty field. *)
Theorem create_duplicate_accepted_on_marker :
  app (csv := PandasNA) (mkRequest POST "/items/" (Some mario_na)) None
  = (mkResponse 200 (JsonItem (Item.mk 1 "Mario" "Rossi" "NA")),
     Some [(1, "Mario", "Rossi", "NA")])
  /\ table (csv := PandasNA) (Some [(1, "Mario", "Rossi", "NA")])
     = [Row.mk 1 (VStr "Mario") (VStr "Rossi") VNaN]
  /\ app (csv := PandasNA) (mkRequest POST "/items/" (Some luigi_na))
       (Some [(1, "Mario", "Rossi", "NA")])
     = (mkResponse 200 (JsonItem (Item.mk 2 "Luigi" "Verdi" "NA")),
        Some [(1, "Mario", "Rossi", ""); (2, "Luigi", "Verdi", "NA")]).
Proof.
  split; [reflexivity|split; reflexivity].
Qed.

(** C4.  The round trip through the file loses a field that is one of the
    reader's missing-value markers: the record [create_item] returns for
    the first name "NA" is not what [get_item] returns on its id right
    afterwards.  The stored field is read back as a missing value, the row
    no longer validates, and neither [get_item] nor [get_all_items] returns
    the record. *)
Theorem created_record_lost_on_marker :
  exists (r : Item.t) (fs1 : FS),
    create_item (csv := PandasNA) na_rossi None = (Return r, fs1)
    /\ r = Item.mk 1 "NA" "Rossi" "RSSMRA80A01H501U"
    /\ table fs1
       = [Row.mk 1 VNaN (VStr "Rossi") (VStr "RSSMRA80A01H501U")]
    /\ fst (get_item (Item.id r) fs1) <> Return r
    /\ fst (get_item (Item.id r) fs1) = Raise ValidationError
    /\ fst (get_all_items fs1) = Raise ValidationError.
Proof.
  exists (Item.mk 1 "NA" "Rossi" "RSSMRA80A01H501U").
  exists (Some [(1, "NA", "Rossi", "RSSMRA80A01H501U")]).
  repeat split. cbn. discriminate.
Qed.

(** ** Instances of the properties on sample stores *)

Lemma absent_id_not_found_witness :
  ~ In 7 (map Row.id (table (csv := Mem) None))
  /\ (get_item (csv := Mem) 7 None
      = (Raise (HTTPException 404 "Item not found"), Some (init_file (csv := Mem) None))
      /\ update_item (csv := Mem) 7 rename None
         = (Raise (HTTPException 404 "Item not found"), Some (init_file (csv := Mem) None))
      /\ delete_item (csv := Mem) 7 None
         = (Raise (HTTPException 404 "Item not found"), Some (init_file (csv := Mem) None))
      /\ table (csv := Mem) (Some (init_file (csv := Mem) None))
         = table (csv := Mem) None).
Proof.
  split; [intros []|].
  apply (@absent_id_not_found Mem None 7 rename). intros [].
Defined.

Lemma create_duplicate_rejected_witness :
  (In (Item.to_row mario_1) (table (csv := Mem) (Some (frame_of [mario_1; luigi_2])))
   /\ Row.codice_fiscale (Item.to_row mario_1)
      = VStr (ItemCreate.codice_fiscale mario))
  /\ create_item (csv := Mem) mario (Some (frame_of [mario_1; luigi_2]))
     = (Raise (HTTPException 400 "Codice fiscale already exists"),
        Some (frame_of [mario_1; luigi_2])).
Proof.
  split; [split; [now left|reflexivity]|].
  apply (@create_duplicate_rejected Mem (Some (frame_of [mario_1; luigi_2]))
           mario (Item.to_row mario_1)); [now left|reflexivity].
Defined.

Lemma create_assigns_max_plus_one_witness :
  (forall r,
      In r (table (run (csv := Mem)
                     [Create mario; Create luigi; Create anna; DeleteById 2]
                     None)) ->
      Row.codice_fiscale r <> VStr (ItemCreate.codice_fiscale carla))
  /\ map Row.id
       (table (run (csv := Mem)
                 [Create mario; Create luigi; Create anna; DeleteById 2] None))
     = [1; 3]
  /\ fst (create_item (csv := Mem) carla
            (run (csv := Mem)
               [Create mario; Create luigi; Create anna; DeleteById 2] None))
     = Return (Item.mk 4 "Carla" "Neri" "NRECRL85D44G273Q").
Proof.
  assert (H : forall r,
             In r (table (run (csv := Mem)
                            [Create mario; Create luigi; Create anna;
                             DeleteById 2] None)) ->
             Row.codice_fiscale r <> VStr (ItemCreate.codice_fiscale carla)).
  { intros r [<-|[<-|[]]]; discriminate. }
  split; [exact H|]. split; [reflexivity|].
  destruct (@create_assigns_max_plus_one Mem _ carla H)
    as (new_id & E & _ & _ & _ & H4).
  rewrite E. cbn [fst]. rewrite (H4 eq_refl). reflexivity.
Defined.

Lemma update_changes_one_row_witness :
  update_item (csv := Mem) 1 no_fields (Some (frame_of [mario_1; luigi_2]))
  = (Return mario_1, Some (frame_of [mario_1; luigi_2]))
  /\ exists l1 r l2,
       frame_of [mario_1; luigi_2] = l1 ++ r :: l2
       /\ Row.id r = 2
       /\ snd (update_item (csv := Mem) 2 rename
                 (Some (frame_of [mario_1; luigi_2])))
          = Some (l1 ++ apply_fields rename r :: l2)
       /\ Item.to_row (Item.mk 2 "Gino" "Verdi" "VRDLGU75B02F205X")
          = apply_fields rename r.
Proof.
  destruct (@update_changes_one_row Mem (Some (frame_of [mario_1; luigi_2]))
              1 no_fields) as [_ B].
  destruct (@update_changes_one_row Mem (Some (frame_of [mario_1; luigi_2]))
              2 rename) as [A _].
  split.
  - apply (B [] mario_1 [Item.to_row luigi_2]); [reflexivity|reflexivity|].
    intros x [].
  - destruct (A (Item.mk 2 "Gino" "Verdi" "VRDLGU75B02F205X")
                (Some (frame_of [mario_1;
                                 Item.mk 2 "Gino" "Verdi" "VRDLGU75B02F205X"]))
                eq_refl)
      as (l1 & r & l2 & Ht & Hr & _ & Hfs & Hrow & _).
    exists l1, r, l2. repeat split; assumption.
Defined.


Lemma update_empty_fiscal_code_unchecked_witness :
  (In 1 (map Row.id
           (table (csv := Mem)
              (Some (frame_of [mario_1; Item.mk 2 "Luigi" "Verdi" ""]))))
   /\ ItemUpdate.codice_fiscale clear_cf = Some "")
  /\ fst (update_item (csv := Mem) 1 clear_cf
            (Some (frame_of [mario_1; Item.mk 2 "Luigi" "Verdi" ""])))
     <> Raise (HTTPException 400 "Codice fiscale already exists").
Proof.
  split; [split; [now left|reflexivity]|].
  destruct (@update_empty_fiscal_code_unchecked Mem
              (Some (frame_of [mario_1; Item.mk 2 "Luigi" "Verdi" ""])) 1
              clear_cf (or_introl eq_refl) eq_refl)
    as (l1 & r & l2 & _ & _ & _ & _ & _ & Hnot & _).
  exact Hnot.
Defined.


Lemma update_duplicate_rule_witness :
  In 1 (map Row.id (table (csv := Mem) (Some (frame_of [mario_1; luigi_2]))))
  /\ fst (update_item (csv := Mem) 1
            (ItemUpdate.mk None None (Some "RSSMRA80A01H501U"))
            (Some (frame_of [mario_1; luigi_2])))
     = Return mario_1
  /\ (fst (update_item (csv := Mem) 1
             (ItemUpdate.mk None None (Some "VRDLGU75B02F205X"))
             (Some (frame_of [mario_1; luigi_2])))
      = Raise (HTTPException 400 "Codice fiscale already exists")
      <-> exists cf x,
            Some "VRDLGU75B02F205X" = Some cf /\ cf <> ""
            /\ In x (frame_of [mario_1; luigi_2])
            /\ Row.codice_fiscale x = VStr cf /\ Row.id x <> 1).
Proof.
  split; [now left|]. split; [reflexivity|].
  apply (@update_duplicate_rule Mem (Some (frame_of [mario_1; luigi_2])) 1
           (ItemUpdate.mk None None (Some "VRDLGU75B02F205X"))).
  now left.
Defined.

Lemma fiscal_codes_stay_unique_witness :
  (@reads_back PandasNA not_na
   /\ table (csv := PandasNA)
        (Some [(1, "Mario", "Rossi", "RSSMRA80A01H501U");
               (2, "Luigi", "Verdi", "VRDLGU75B02F205X")])
      = frame_of [mario_1; luigi_2]
   /\ forallb (safe_item not_na) [mario_1; luigi_2] = true
   /\ safe_op not_na (Update 2 (ItemUpdate.mk None None (Some "XYZ"))) = true
   /\ NoDup (map Item.id [mario_1; luigi_2])
   /\ NoDup (map Item.codice_fiscale [mario_1; luigi_2]))
  /\ exists t',
       table (csv := PandasNA)
         (exec (csv := PandasNA)
            (Update 2 (ItemUpdate.mk None None (Some "XYZ")))
            (Some [(1, "Mario", "Rossi", "RSSMRA80A01H501U");
                   (2, "Luigi", "Verdi", "VRDLGU75B02F205X")]))
       = frame_of t'
       /\ NoDup (map Item.id t')
       /\ NoDup (map Item.codice_fiscale t').
Proof.
  assert (Hid : NoDup (map Item.id [mario_1; luigi_2])).
  { repeat constructor; cbn; intuition discriminate. }
  assert (Hcf : NoDup (map Item.codice_fiscale [mario_1; luigi_2])).
  { repeat constructor; cbn; intuition discriminate. }
  split.
  - repeat split; try assumption. exact PandasNA_reads_back.
  - apply (@fiscal_codes_stay_unique PandasNA not_na PandasNA_reads_back
             (Some [(1, "Mario", "Rossi", "RSSMRA80A01H501U");
                    (2, "Luigi", "Verdi", "VRDLGU75B02F205X")])
             [mario_1; luigi_2]
             (Update 2 (ItemUpdate.mk None None (Some "XYZ"))));
      try reflexivity; try assumption.
    intros j u [= _ <-]. discriminate.
Defined.

Lemma reachable_ids_distinct_witness :
  (@reads_back PandasNA not_na
   /\ table (csv := PandasNA) None = []
   /\ forallb (safe_op not_na)
        [Create mario; Create luigi; DeleteById 1; Create anna] = true)
  /\ exists t,
       table (csv := PandasNA)
         (run (csv := PandasNA)
            [Create mario; Create luigi; DeleteById 1; Create anna] None)
       = frame_of t
       /\ NoDup (map Item.id t).
Proof.
  split.
  - repeat split. exact PandasNA_reads_back.
  - apply (@reachable_ids_distinct PandasNA not_na PandasNA_reads_back
             [Create mario; Create luigi; DeleteById 1; Create anna] None);
      reflexivity.
Defined.

(** ** The outcomes of a request *)

Lemma validate_cases (d : Row.t) :
  (exists i, Item.validate d = Return i)
  \/ Item.validate d = Raise ValidationError.
Proof.
  unfold Item.validate.
  destruct (Row.nome d), (Row.cognome d), (Row.codice_fiscale d);
    try (right; reflexivity).
  left. eexists. reflexivity.
Qed.

Lemma validate_all_cases (df : DataFrame) :
  (exists l, validate_all df = Return l)
  \/ validate_all df = Raise ValidationError.
Proof.
  induction df as [|r df IH]; [left; now exists []|].
  cbn [validate_all].
  destruct (validate_cases r) as [[i ->]| ->]; [|now right].
  destruct IH as [[l ->]| ->]; [left; eexists; reflexivity|now right].
Qed.

Lemma method_eqb_true (a b : method) : method_eqb a b = true -> a = b.
Proof. destruct a, b; simpl; intros H; try discriminate; reflexivity. Qed.

(** The route that answers is one of the table, registered for the method
    of the request. *)
Lemma first_full_route (rs : list route) (m : method) (path : string)
  (r : route) (params : list string) :
  first_full rs m path = Some (r, params) ->
  In r rs /\ route_method r = m
  /\ match_path (route_path r) path = Some params.
Proof.
  induction rs as [|r0 rs IH]; [discriminate|].
  cbn [first_full]. unfold matches.
  destruct (match_path (route_path r0) path) as [ps|] eqn:Hp.
  - destruct (method_eqb (route_method r0) m) eqn:Hm.
    + intros [= <- <-]. repeat split; [now left|now apply method_eqb_true|exact Hp].
    + intros H. destruct (IH H) as (Hin & Hmeth & Hpath).
      repeat split; [now right|exact Hmeth|exact Hpath].
  - intros H. destruct (IH H) as (Hin & Hmeth & Hpath).
    repeat split; [now right|exact Hmeth|exact Hpath].
Qed.

Section Outcomes.
Context {csv : Csv}.

Lemma call_outcome (e : endpoint) (params : list string)
  (body : option json_object) (fs : FS) :
  outcome fs (call e params body fs).
Proof.
  destruct e; cbn [call].
  - destruct (option_map parse_ItemCreate body) as [[item|]|];
      try apply Rejected.
    unfold serve. rewrite create_item_eq.
    destruct (isin _ _); cbv zeta; cbn [respond duplicate].
    + apply Conflict.
    + apply Answered_written.
  - unfold serve. rewrite get_all_items_eq.
    destruct (validate_all_cases (table fs)) as [[l ->]| ->]; cbn [respond].
    + apply Answered_read.
    + apply Broken_read.
  - destruct (option_map parse_int (hd_error params)) as [[item_id|]|];
      try apply Rejected.
    unfold serve. rewrite get_item_eq.
    destruct (filter _ (table fs)) as [|r rest]; cbn [respond not_found].
    + apply Missing.
    + destruct (validate_cases r) as [[i ->]| ->]; cbn [respond].
      * apply Answered_read.
      * apply Broken_read.
  - destruct (option_map parse_int (hd_error params)) as [[item_id|]|];
      try apply Rejected.
    destruct (option_map parse_ItemUpdate body) as [[u|]|]; try apply Rejected.
    unfold serve.
    destruct (in_dec Z.eq_dec item_id (map Row.id (table fs))) as [Hin|Hnot].
    + destruct (first_with_id _ _ Hin) as (l1 & r & l2 & Ht & Hr & Hl1).
      rewrite (update_item_present _ _ _ _ _ _ Ht Hr Hl1).
      destruct (update_conflict item_id u (table fs)); cbn [respond duplicate].
      * apply Conflict.
      * destruct (validate_cases (apply_fields u r)) as [[i ->]| ->];
          cbn [respond].
        -- apply Answered_written.
        -- apply Broken_written.
    + rewrite (update_item_absent _ _ _ Hnot). cbn [respond not_found].
      apply Missing.
  - destruct (option_map parse_int (hd_error params)) as [[item_id|]|];
      try apply Rejected.
    unfold serve. rewrite delete_item_eq.
    destruct (filter _ (table fs)); cbn [respond not_found].
    + apply Missing.
    + apply Answered_written.
  - unfold serve. rewrite get_items_count_eq. cbn [respond]. apply Answered_read.
  - unfold serve, root, ret. cbn [respond]. apply Answered_untouched.
Qed.

(** The outcomes of the application: those of an endpoint, or one of the
    three answers of the router itself, which leave the state alone. *)
Lemma app_outcome (rq : request) (fs : FS) :
  outcome fs (app rq fs)
  \/ (snd (app rq fs) = fs
      /\ In (status_code (fst (app rq fs))) [405; 307; 404]).
Proof.
  unfold app. destruct (first_full routes (req_method rq) (req_path rq))
    as [[r params]|].
  - left. apply call_outcome.
  - right. destruct (any_match routes (req_method rq) (req_path rq)).
    + split; [reflexivity|]. cbn. tauto.
    + destruct (negb (req_path rq =? "/")%string
                && any_match routes (req_method rq)
                     (toggle_slash (req_path rq)));
        (split; [reflexivity|cbn; tauto]).
Qed.

(** X5.  Whatever the request and the store, the status of the answer is
    200, 307, 400, 404, 405, 422 or 500. *)
Theorem app_status_codes (rq : request) (fs : FS) :
  In (status_code (fst (app rq fs))) status_codes.
Proof.
  destruct (app_outcome rq fs) as [H|[_ H]].
  - inversion H; cbn; tauto.
  - unfold status_codes. cbn in *. tauto.
Qed.

(** X6.  A request that is answered with a status other than 200 and 500
    has written nothing: the state is the one before the request, or that
    state with [data.csv] created header-only when it did not exist. *)
Theorem client_error_writes_nothing (rq : request) (fs : FS) :
  status_code (fst (app rq fs)) <> 200 ->
  status_code (fst (app rq fs)) <> 500 ->
  snd (app rq fs) = fs \/ snd (app rq fs) = Some (init_file fs).
Proof.
  intros H200 H500.
  destruct (app_outcome rq fs) as [H|[H _]]; [|now left].
  inversion H as [E|c E|c E|c df E| E | E | E |df E];
    rewrite <- E in *; cbn [fst snd status_code] in *;
    try (now left); try (now right); congruence.
Qed.

(** X7.  A GET request writes nothing, whatever its path and whatever it
    is answered: the state is the one before, or that state with
    [data.csv] created header-only when it did not exist. *)
Theorem get_writes_nothing (path : string) (body : option json_object)
  (fs : FS) :
  snd (app (mkRequest GET path body) fs) = fs
  \/ snd (app (mkRequest GET path body) fs) = Some (init_file fs).
Proof.
  unfold app. cbn [req_method req_path req_body].
  destruct (first_full routes GET path) as [[r params]|] eqn:E.
  - apply first_full_route in E. destruct E as (Hin & Hm & _).
    unfold routes in Hin. cbn [In] in Hin.
    destruct Hin as [<-|[<-|[<-|[<-|[<-|[<-|[<-|[]]]]]]]];
      cbn [route_method] in Hm; try discriminate;
      cbn [route_endpoint call].
    + right. unfold serve. now rewrite get_all_items_eq.
    + destruct (option_map parse_int (hd_error params)) as [[item_id|]|];
        try (now left).
      right. unfold serve. now rewrite get_item_eq.
    + right. unfold serve. now rewrite get_items_count_eq.
    + now left.
  - destruct (any_match routes GET path); [now left|].
    destruct (negb (path =? "/")%string
              && any_match routes GET (toggle_slash path)); now left.
Qed.

(** X8.  On a table of records no request is answered 500: every row the
    handlers build an [Item] from validates. *)
Theorem records_never_500 (rq : request) (fs : FS) (t : list Item.t) :
  table fs = frame_of t ->
  status_code (fst (app rq fs)) <> 500.
Proof.
  intros Ht.
  unfold app. destruct (first_full routes (req_method rq) (req_path rq))
    as [[r params]|].
  2:{ destruct (any_match routes (req_method rq) (req_path rq));
        [cbn; discriminate|].
      destruct (negb (req_path rq =? "/")%string
                && any_match routes (req_method rq)
                     (toggle_slash (req_path rq))); cbn; discriminate. }
  destruct (route_endpoint r); cbn [call].
  - destruct (option_map parse_ItemCreate (req_body rq)) as [[item|]|];
      try (cbn; discriminate).
    unfold serve. rewrite create_item_eq.
    destruct (isin _ _); cbn; discriminate.
  - unfold serve. rewrite get_all_items_eq, Ht, validate_all_frame_of.
    cbn. discriminate.
  - destruct (option_map parse_int (hd_error params)) as [[item_id|]|];
      try (cbn; discriminate).
    unfold serve. rewrite get_item_eq, Ht, filter_frame_of.
    destruct (filter _ t) as [|i rest]; [cbn; discriminate|].
    cbn [frame_of map]. rewrite validate_to_row. cbn. discriminate.
  - destruct (option_map parse_int (hd_error params)) as [[item_id|]|];
      try (cbn; discriminate).
    destruct (option_map parse_ItemUpdate (req_body rq)) as [[u|]|];
      try (cbn; discriminate).
    unfold serve.
    destruct (in_dec Z.eq_dec item_id (map Row.id (table fs))) as [Hin|Hnot].
    + destruct (first_with_id _ _ Hin) as (l1 & r0 & l2 & Hdf & Hr & Hl1).
      rewrite (update_item_present _ _ _ _ _ _ Hdf Hr Hl1).
      destruct (update_conflict item_id u (table fs)); [cbn; discriminate|].
      assert (Hrow : In r0 (frame_of t)).
      { rewrite <- Ht, Hdf. apply in_or_app. right. now left. }
      unfold frame_of in Hrow. apply in_map_iff in Hrow.
      destruct Hrow as (i & <- & _).
      rewrite <- to_row_apply_item, validate_to_row. cbn. discriminate.
    + rewrite (update_item_absent _ _ _ Hnot). cbn. discriminate.
  - destruct (option_map parse_int (hd_error params)) as [[item_id|]|];
      try (cbn; discriminate).
    unfold serve. rewrite delete_item_eq.
    destruct (filter _ (table fs)); cbn; discriminate.
  - unfold serve. rewrite get_items_count_eq. cbn. discriminate.
  - cbn. discriminate.
Qed.

End Outcomes.

(** ** How the calls compose *)

Lemma apply_fields_twice (u : ItemUpdate.t) (r : Row.t) :
  apply_fields u (apply_fields u r) = apply_fields u r.
Proof. destruct u as [[n|] [c|] [cf|]]; reflexivity. Qed.

(** The duplicate test does not look at the rows of the id itself. *)
Lemma update_conflict_own_row (item_id : Z) (u : ItemUpdate.t)
  (l1 l2 : DataFrame) (r r' : Row.t) :
  Row.id r = item_id -> Row.id r' = item_id ->
  update_conflict item_id u (l1 ++ r' :: l2)
  = update_conflict item_id u (l1 ++ r :: l2).
Proof.
  intros Hr Hr'. unfold update_conflict. f_equal. f_equal. f_equal.
  rewrite !filter_app. cbn [filter].
  rewrite Hr, Hr', Z.eqb_refl. cbn [negb]. now rewrite !andb_false_r.
Qed.

Lemma filter_all {A : Type} (p : A -> bool) (l : list A) :
  (forall x, In x l -> p x = true) -> filter p l = l.
Proof.
  induction l as [|a l IH]; intros H; [reflexivity|].
  cbn [filter]. rewrite (H a (or_introl eq_refl)). f_equal.
  apply IH. intros; apply H; now right.
Qed.

Section Composition.
Context {csv : Csv}.

(** X9.  [update_item] is idempotent: when a call returned a record and
    the table it wrote is read back as written, the same call again
    returns the same record and writes the same table. *)
Theorem update_twice (fs : FS) (item_id : Z) (u : ItemUpdate.t)
  (i : Item.t) (fs' : FS) :
  update_item item_id u fs = (Return i, fs') ->
  (forall df, fs' = Some (to_csv df) -> pd_read_csv (to_csv df) = df) ->
  update_item item_id u fs' = (Return i, fs').
Proof.
  intros H Hrb.
  destruct (in_dec Z.eq_dec item_id (map Row.id (table fs))) as [Hin|Hnot].
  2:{ rewrite (update_item_absent _ _ _ Hnot) in H. discriminate. }
  destruct (first_with_id _ _ Hin) as (l1 & r & l2 & Ht & Hr & Hl1).
  rewrite (update_item_present _ _ _ _ _ _ Ht Hr Hl1) in H.
  destruct (update_conflict item_id u (table fs)) eqn:Hc; [discriminate|].
  injection H as Hv <-.
  assert (Ht' : table (Some (to_csv (l1 ++ apply_fields u r :: l2)))
                = l1 ++ apply_fields u r :: l2).
  { unfold table. cbn [init_file]. now apply Hrb. }
  rewrite (update_item_present _ _ _ _ _ _ Ht' Hr Hl1).
  rewrite Ht'. rewrite (update_conflict_own_row item_id u l1 l2 r); try exact Hr.
  rewrite <- Ht, Hc. cbn [init_file].
  now rewrite apply_fields_twice, Hv.
Qed.

(** X10.  After [create_item] returned a record, and with the table it
    wrote read back as written, a second [create_item] with the same
    fiscal code raises [HTTPException 400] and leaves the file as it is,
    whatever its other fields. *)
Theorem create_twice_rejected (fs : FS) (item item2 : ItemCreate.t)
  (r : Item.t) (fs1 : FS) :
  create_item item fs = (Return r, fs1) ->
  (forall df, fs1 = Some (to_csv df) -> pd_read_csv (to_csv df) = df) ->
  ItemCreate.codice_fiscale item2 = ItemCreate.codice_fiscale item ->
  create_item item2 fs1
  = (Raise (HTTPException 400 "Codice fiscale already exists"), fs1).
Proof.
  intros H Hrb Hcf. rewrite create_item_eq in H.
  destruct (isin _ _); [discriminate|]. cbv zeta in H. injection H as <- <-.
  match goal with
  | Hrb : forall df, Some (to_csv ?d) = Some (to_csv df) -> _ |- _ =>
      assert (Ht1 : table (Some (to_csv d)) = d)
        by (unfold table; cbn [init_file]; now apply Hrb)
  end.
  rewrite create_item_eq, Ht1.
  erewrite isin_true; [reflexivity| |].
  - apply in_or_app. right. now left.
  - cbn [Item.to_row Row.codice_fiscale Item.codice_fiscale]. now rewrite Hcf.
Qed.

(** X11.  Creating a record and deleting it again gives back the table as
    it was, and the id is then assigned again: with the written tables
    read back as written, [delete_item] on the id [create_item] returned
    writes the table [create_item] started from, and the next
    [create_item] returns that same id. *)
Theorem create_delete_reuses_id (fs : FS) (item item2 : ItemCreate.t)
  (r : Item.t) (fs1 : FS) :
  create_item item fs = (Return r, fs1) ->
  (forall df, fs1 = Some (to_csv df) -> pd_read_csv (to_csv df) = df) ->
  pd_read_csv (to_csv (table fs)) = table fs ->
  (forall x, In x (table fs) ->
             Row.codice_fiscale x <> VStr (ItemCreate.codice_fiscale item2)) ->
  delete_item (Item.id r) fs1
  = (Return "Item deleted successfully", Some (to_csv (table fs)))
  /\ fst (create_item item2 (snd (delete_item (Item.id r) fs1)))
     = Return (Item.mk (Item.id r) (ItemCreate.nome item2)
                 (ItemCreate.cognome item2) (ItemCreate.codice_fiscale item2)).
Proof.
  intros H Hrb1 Hrb Hfree. rewrite create_item_eq in H.
  destruct (isin _ _); [discriminate|]. cbv zeta in H. injection H as <- <-.
  cbn [Item.id].
  set (new_id := match table fs with [] => 1 | x :: rest => id_max x rest + 1 end).
  set (row := Item.to_row
                (Item.mk new_id (ItemCreate.nome item) (ItemCreate.cognome item)
                   (ItemCreate.codice_fiscale item))).
  assert (Hlt : forall x, In x (table fs) -> Row.id x < new_id).
  { intros x Hx. subst new_id. destruct (table fs) as [|a rest]; [destruct Hx|].
    destruct (id_max_is_max a rest) as [_ Hle].
    specialize (Hle _ (in_map Row.id _ _ Hx)). lia. }
  assert (Hdel : delete_item new_id (Some (to_csv (table fs ++ [row])))
                 = (Return "Item deleted successfully",
                    Some (to_csv (table fs)))).
  { assert (Ht1 : table (Some (to_csv (table fs ++ [row])))
                  = table fs ++ [row])
      by (unfold table at 1; cbn [init_file]; now apply Hrb1).
    rewrite delete_item_eq, Ht1. rewrite !filter_app. cbn [filter].
    subst row. cbn [Item.to_row Row.id Item.id]. rewrite Z.eqb_refl.
    cbn [negb]. rewrite app_nil_r.
    rewrite (filter_all (fun x => negb (Row.id x =? new_id))).
    2:{ intros x Hx. apply negb_true_iff, Z.eqb_neq. specialize (Hlt x Hx). lia. }
    destruct (filter (fun x => Row.id x =? new_id) (table fs) ++ _) eqn:E;
      [|reflexivity].
    apply app_eq_nil in E. destruct E as [_ E]. discriminate. }
  split; [exact Hdel|].
  assert (Ht2 : table (Some (to_csv (table fs))) = table fs)
    by (unfold table at 1; cbn [init_file]; exact Hrb).
  rewrite Hdel. cbn [snd]. rewrite create_item_eq, Ht2.
  rewrite (isin_false _ _ Hfree). reflexivity.
Qed.

(** X12.  On any frame that has a row with the id, also one with several,
    [delete_item] writes the frame without every row of that id, the
    others kept in order; with that frame read back as written,
    [get_item], [update_item] and [delete_item] on the id then raise
    [HTTPException 404]. *)
Theorem delete_then_not_found (fs : FS) (item_id : Z) (u : ItemUpdate.t) :
  In item_id (map Row.id (table fs)) ->
  let df := filter (fun r => negb (Row.id r =? item_id)) (table fs) in
  delete_item item_id fs
  = (Return "Item deleted successfully", Some (to_csv df))
  /\ (forall x, In x df <-> In x (table fs) /\ Row.id x <> item_id)
  /\ (List.length df < List.length (table fs))%nat
  /\ (pd_read_csv (to_csv df) = df ->
      fst (get_item item_id (Some (to_csv df))) = Raise not_found
      /\ fst (update_item item_id u (Some (to_csv df))) = Raise not_found
      /\ fst (delete_item item_id (Some (to_csv df))) = Raise not_found).
Proof.
  intros Hin df.
  assert (Hdf : forall x, In x df <-> In x (table fs) /\ Row.id x <> item_id).
  { intros x. subst df. rewrite filter_In, negb_true_iff, Z.eqb_neq. tauto. }
  split; [|split; [exact Hdf|split; [|intros H; repeat split]]].
  - rewrite delete_item_eq.
    destruct (filter (fun r => Row.id r =? item_id) (table fs)) eqn:E;
      [|reflexivity].
    exfalso. apply in_map_iff in Hin. destruct Hin as (x & Hx & Hin).
    pose proof (proj1 (filter_nil_iff _ _) E x Hin) as H.
    apply Z.eqb_neq in H. contradiction.
  - subst df. clear Hdf. induction (table fs) as [|a l IH]; [destruct Hin|].
    cbn [filter map In] in *.
    destruct (Z.eqb_spec (Row.id a) item_id) as [E|Hne]; cbn [negb List.length].
    + pose proof (filter_length_le (fun r => negb (Row.id r =? item_id)) l). lia.
    + destruct Hin as [Hin|Hin]; [contradiction|]. specialize (IH Hin). lia.
  - rewrite get_item_eq. cbn [fst]. unfold table. cbn [init_file]. rewrite H.
    replace (filter (fun r => Row.id r =? item_id) df) with (@nil Row.t);
      [reflexivity|].
    symmetry. apply filter_nil_iff. intros x Hx. apply Z.eqb_neq. now apply Hdf.
  - rewrite update_item_absent; [reflexivity|].
    unfold table. cbn [init_file]. rewrite H. intros Hi.
    apply in_map_iff in Hi. destruct Hi as (x & Hx & Hi). now apply Hdf in Hi.
  - rewrite delete_item_eq. unfold table. cbn [init_file]. rewrite H.
    replace (filter (fun r => Row.id r =? item_id) df) with (@nil Row.t);
      [reflexivity|].
    symmetry. apply filter_nil_iff. intros x Hx. apply Z.eqb_neq. now apply Hdf.
Qed.

(** X13.  [update_item] writes before it builds the record it returns:
    whenever it raises the validation error, it has already written the
    table with the row updated. *)
Theorem update_fails_after_writing (fs : FS) (item_id : Z) (u : ItemUpdate.t) :
  fst (update_item item_id u fs) = Raise ValidationError ->
  exists l1 r l2,
    table fs = l1 ++ r :: l2
    /\ Row.id r = item_id
    /\ (forall x, In x l1 -> Row.id x <> item_id)
    /\ Item.validate (apply_fields u r) = Raise ValidationError
    /\ snd (update_item item_id u fs)
       = Some (to_csv (l1 ++ apply_fields u r :: l2)).
Proof.
  intros H.
  destruct (in_dec Z.eq_dec item_id (map Row.id (table fs))) as [Hin|Hnot].
  2:{ rewrite (update_item_absent _ _ _ Hnot) in H. discriminate. }
  destruct (first_with_id _ _ Hin) as (l1 & r & l2 & Ht & Hr & Hl1).
  rewrite (update_item_present _ _ _ _ _ _ Ht Hr Hl1) in *.
  destruct (update_conflict item_id u (table fs)); [discriminate|].
  exists l1, r, l2. repeat split; assumption.
Qed.

End Composition.

(** ** Creating several records *)





Section Creates.
Context {csv : Csv}.
Variable safe : string -> bool.
Hypothesis Hrb : reads_back safe.


End Creates.

(** ** Records with a missing-value marker *)

Lemma read_write_text (s : string) :
  read_field (write_field (VStr s)) = if is_na s then VNaN else VStr s.
Proof. reflexivity. Qed.

Lemma read_write_line_id (x : Row.t) :
  Row.id (read_line (write_line x)) = Row.id x.
Proof. destruct x; reflexivity. Qed.

Lemma validate_all_bad (df : DataFrame) (x : Row.t) :
  In x df -> Item.validate x = Raise ValidationError ->
  validate_all df = Raise ValidationError.
Proof.
  intros Hin Hx. induction df as [|r df IH]; [destruct Hin|].
  cbn [validate_all].
  destruct (validate_cases r) as [[i Hr]|Hr]; rewrite Hr; [|reflexivity].
  destruct Hin as [->|Hin]; [congruence|]. now rewrite (IH Hin).
Qed.

(** X15.  With pandas' missing-value markers, a record that
    [create_item] accepted with a marker as one of its three texts cannot
    be read afterwards: [get_item] on the id just returned and
    [get_all_items] both raise the validation error, whatever else the
    table holds. *)
Theorem marker_record_unreadable (fs : @FS PandasNA) (item : ItemCreate.t)
  (r : Item.t) (fs1 : @FS PandasNA) :
  has_marker item = true ->
  create_item (csv := PandasNA) item fs = (Return r, fs1) ->
  fst (get_item (csv := PandasNA) (Item.id r) fs1) = Raise ValidationError
  /\ fst (get_all_items (csv := PandasNA) fs1) = Raise ValidationError.
Proof.
  intros Hm H. rewrite create_item_eq in H.
  destruct (isin _ _); [discriminate|]. cbv zeta in H.
  set (new_id := match table fs with [] => 1 | x :: rest => id_max x rest + 1 end)
    in *.
  assert (Hr : r = Item.mk new_id (ItemCreate.nome item)
                     (ItemCreate.cognome item) (ItemCreate.codice_fiscale item))
    by congruence.
  assert (Hfs1 : fs1 = Some (to_csv (table fs ++ [Item.to_row r])))
    by congruence.
  clear H. subst r fs1. cbn [Item.id].
  set (row := Item.to_row
                (Item.mk new_id (ItemCreate.nome item) (ItemCreate.cognome item)
                   (ItemCreate.codice_fiscale item))).
  assert (Ht1 : table (csv := PandasNA) (Some (to_csv (table fs ++ [row])))
                = map (fun x => read_line (write_line x)) (table fs)
                  ++ [read_line (write_line row)]).
  { unfold table at 1. cbn [init_file to_csv pd_read_csv PandasNA].
    now rewrite map_map, map_app. }
  assert (Hbad : Item.validate (read_line (write_line row))
                 = Raise ValidationError).
  { subst row. unfold Item.to_row, write_line, read_line, Item.validate.
    cbn [Row.id Row.nome Row.cognome Row.codice_fiscale Item.id Item.nome
         Item.cognome Item.codice_fiscale].
    rewrite !read_write_text. unfold has_marker in Hm.
    destruct (is_na (ItemCreate.nome item)); [reflexivity|].
    destruct (is_na (ItemCreate.cognome item)); [reflexivity|].
    destruct (is_na (ItemCreate.codice_fiscale item)); [reflexivity|].
    discriminate. }
  assert (Hlt : forall x, In x (table fs) -> Row.id x < new_id).
  { intros x Hx. subst new_id. destruct (table fs) as [|a rest]; [destruct Hx|].
    destruct (id_max_is_max a rest) as [_ Hle].
    specialize (Hle _ (in_map Row.id _ _ Hx)). lia. }
  split.
  - rewrite get_item_eq, Ht1. cbn [fst]. rewrite filter_app.
    replace (filter (fun x => Row.id x =? new_id)
               (map (fun x => read_line (write_line x)) (table fs)))
      with (@nil Row.t).
    + cbn [app filter]. rewrite read_write_line_id.
      subst row. cbn [Item.to_row Row.id Item.id]. rewrite Z.eqb_refl.
      exact Hbad.
    + symmetry. apply filter_nil_iff. intros x Hx. apply in_map_iff in Hx.
      destruct Hx as (y & <- & Hy). rewrite read_write_line_id.
      apply Z.eqb_neq. specialize (Hlt y Hy). lia.
  - rewrite get_all_items_eq, Ht1. cbn [fst].
    apply (validate_all_bad _ (read_line (write_line row))); [|exact Hbad].
    apply in_or_app. right. now left.
Qed.

Lemma marker_not_read (f : list Line) (x : Row.t) (s : string) :
  is_na s = true -> In x (map read_line f) -> Row.codice_fiscale x <> VStr s.
Proof.
  intros Hs Hx E. apply in_map_iff in Hx.
  destruct Hx as ([[[i n] c] cf] & <- & _).
  cbn [read_line Row.codice_fiscale] in E. unfold read_field in E.
  destruct (is_na cf) eqn:Hcf; [discriminate|].
  injection E as ->. congruence.
Qed.

(** X22.  With pandas' missing-value markers, [create_item] never rejects
    a request whose fiscal code is a marker, whatever the file holds: no
    cell of the frame read is that text, so the request is accepted and
    its row appended to the frame read, also when a row with the same code
    is in the file. *)
Theorem marker_code_never_rejected (fs : @FS PandasNA) (item : ItemCreate.t) :
  is_na (ItemCreate.codice_fiscale item) = true ->
  exists new_id : Z,
    create_item (csv := PandasNA) item fs
    = (Return (Item.mk new_id (ItemCreate.nome item) (ItemCreate.cognome item)
                 (ItemCreate.codice_fiscale item)),
       Some (to_csv (Csv := PandasNA)
               (table fs
                ++ [Row.mk new_id (VStr (ItemCreate.nome item))
                      (VStr (ItemCreate.cognome item))
                      (VStr (ItemCreate.codice_fiscale item))]))).
Proof.
  intros Hna. rewrite create_item_eq.
  rewrite isin_false.
  - cbv zeta. eexists. reflexivity.
  - intros r Hr. unfold table in Hr. cbn [pd_read_csv PandasNA] in Hr.
    now apply (marker_not_read _ _ _ Hna Hr).
Qed.

(** ** The routes of a record *)

Lemma digit_char (k : nat) :
  (k < 10)%nat ->
  In (ascii_of_nat (48 + k))
     ["0"; "1"; "2"; "3"; "4"; "5"; "6"; "7"; "8"; "9"]%char.
Proof.
  intros Hk.
  do 10 (destruct k as [|k]; [cbn; tauto|]). lia.
Qed.

Lemma digit_step (n : Z) (acc : string) (x : Z) :
  0 <= n ->
  digits (String (ascii_of_nat (48 + Z.to_nat (n mod 10))) acc) x
  = digits acc (10 * x + n mod 10).
Proof.
  intros Hn. pose proof (Z.mod_pos_bound n 10 ltac:(lia)) as Hm.
  cbn [digits]. rewrite nat_ascii_embedding by lia.
  replace (48 <=? 48 + Z.to_nat (n mod 10))%nat with true
    by (symmetry; apply Nat.leb_le; lia).
  replace (48 + Z.to_nat (n mod 10) <=? 57)%nat with true
    by (symmetry; apply Nat.leb_le; lia).
  cbn [andb]. f_equal. lia.
Qed.

(** Reading the digits [digits_of] wrote gives the number back. *)
Lemma digits_digits_of (fuel : nat) :
  forall (n : Z) (acc : string),
    0 <= n < 2 ^ Z.of_nat fuel ->
    exists p, forall a, digits (digits_of fuel n acc) a = digits acc (a * p + n).
Proof.
  induction fuel as [|fuel IH]; intros n acc Hn.
  - exists 1. intros a. cbn [digits_of]. f_equal. cbn in Hn. lia.
  - cbn [digits_of]. pose proof (Z.div_mod n 10 ltac:(lia)) as Hdm.
    pose proof (Z.mod_pos_bound n 10 ltac:(lia)) as Hm.
    destruct (Z.eqb_spec (n / 10) 0) as [E|Hne].
    + exists 10. intros a. rewrite digit_step by lia. f_equal. lia.
    + rewrite Nat2Z.inj_succ, Z.pow_succ_r in Hn by lia.
      destruct (IH (n / 10)
                  (String (ascii_of_nat (48 + Z.to_nat (n mod 10))) acc))
        as [p Hp].
      { split; [apply Z.div_pos; lia|].
        apply Z.div_lt_upper_bound; lia. }
      exists (10 * p). intros a. rewrite Hp, digit_step by lia. f_equal. lia.
Qed.

Lemma digits_of_head (fuel : nat) :
  forall (n : Z) (acc : string),
    0 <= n ->
    (fuel = O ->
     exists k rest, (k < 10)%nat /\ acc = String (ascii_of_nat (48 + k)) rest) ->
    exists k rest,
      (k < 10)%nat
      /\ digits_of fuel n acc = String (ascii_of_nat (48 + k)) rest.
Proof.
  induction fuel as [|fuel IH]; intros n acc Hn Hacc.
  - now apply Hacc.
  - cbn [digits_of]. pose proof (Z.mod_pos_bound n 10 ltac:(lia)) as Hm.
    destruct (n / 10 =? 0).
    + exists (Z.to_nat (n mod 10)), acc. split; [lia|reflexivity].
    + apply IH; [apply Z.div_pos; lia|]. intros _.
      exists (Z.to_nat (n mod 10)), acc. split; [lia|reflexivity].
Qed.

Lemma has_slash_digits_of (fuel : nat) :
  forall (n : Z) (acc : string),
    0 <= n -> has_slash (digits_of fuel n acc) = has_slash acc.
Proof.
  induction fuel as [|fuel IH]; intros n acc Hn; [reflexivity|].
  cbn [digits_of]. pose proof (Z.mod_pos_bound n 10 ltac:(lia)) as Hm.
  assert (Hc : has_slash (String (ascii_of_nat (48 + Z.to_nat (n mod 10))) acc)
               = has_slash acc).
  { cbn [has_slash].
    destruct (digit_char (Z.to_nat (n mod 10)) ltac:(lia))
      as [<-|[<-|[<-|[<-|[<-|[<-|[<-|[<-|[<-|[<-|[]]]]]]]]]]]; reflexivity. }
  destruct (n / 10 =? 0); [exact Hc|].
  rewrite IH by (apply Z.div_pos; lia). exact Hc.
Qed.

Lemma parse_int_head (k : nat) (rest : string) :
  (k < 10)%nat ->
  parse_int (String (ascii_of_nat (48 + k)) rest)
  = digits (String (ascii_of_nat (48 + k)) rest) 0.
Proof.
  intros Hk.
  destruct (digit_char k Hk)
    as [<-|[<-|[<-|[<-|[<-|[<-|[<-|[<-|[<-|[<-|[]]]]]]]]]]]; reflexivity.
Qed.

(** The decimal text of an integer is a non-empty text without a slash
    that converts back to the integer. *)
Lemma str_of_Z_spec (z : Z) :
  parse_int (str_of_Z z) = Some z
  /\ has_slash (str_of_Z z) = false
  /\ str_of_Z z <> "".
Proof.
  unfold str_of_Z. cbv zeta.
  set (n := Z.abs z). set (fuel := S (Z.to_nat (Z.log2 n))).
  assert (Hn : 0 <= n) by (subst n; lia).
  assert (Hfuel : 0 <= n < 2 ^ Z.of_nat fuel).
  { split; [exact Hn|]. subst fuel.
    rewrite Nat2Z.inj_succ, Z2Nat.id by apply Z.log2_nonneg.
    destruct (Z.eq_dec n 0) as [->|Hne]; [cbn; lia|].
    apply Z.log2_spec. lia. }
  destruct (digits_digits_of fuel n "" Hfuel) as [p Hp].
  specialize (Hp 0). cbn [digits] in Hp.
  destruct (digits_of_head fuel n "" Hn) as (k & rest & Hk & Hds);
    [discriminate|].
  pose proof (has_slash_digits_of fuel n "" Hn) as Hs. cbn [has_slash] in Hs.
  destruct (Z.ltb_spec z 0) as [Hneg|Hpos].
  - repeat split.
    + rewrite Hds. rewrite Hds in Hp.
      change (parse_int (String "-" (String (ascii_of_nat (48 + k)) rest)))
        with (option_map Z.opp
                (digits (String (ascii_of_nat (48 + k)) rest) 0)).
      rewrite Hp. cbn [option_map]. f_equal. lia.
    + cbn [has_slash]. exact Hs.
    + discriminate.
  - repeat split.
    + rewrite Hds, parse_int_head by exact Hk. rewrite <- Hds, Hp.
      f_equal. lia.
    + exact Hs.
    + rewrite Hds. discriminate.
Qed.

Lemma eqb_prefix_longer (p s : string) :
  s <> "" -> String.eqb p (String.append p s) = false.
Proof.
  intros Hs. apply String.eqb_neq. intros E.
  induction p as [|a p IH]; cbn [String.append] in E.
  - now apply Hs.
  - injection E as E. now apply IH.
Qed.

Lemma strip_prefix_append (p s : string) :
  strip_prefix p (String.append p s) = Some s.
Proof.
  induction p as [|a p IH]; [reflexivity|].
  cbn [String.append strip_prefix]. now rewrite Ascii.eqb_refl.
Qed.

(** X16.  The three routes of a record reach their handlers for every
    integer: with the decimal text of [item_id] after [/items/], GET runs
    [get_item], DELETE runs [delete_item] and PUT runs [update_item] on
    that id (PUT after its body validated, 422 otherwise). *)
Theorem item_routes_reach_handlers {csv : Csv} (item_id : Z)
  (body : option json_object) (fs : FS) :
  app (mkRequest GET (item_path item_id) body) fs
  = serve JsonItem (get_item item_id) fs
  /\ app (mkRequest DELETE (item_path item_id) body) fs
     = serve JsonMessage (delete_item item_id) fs
  /\ app (mkRequest PUT (item_path item_id) body) fs
     = match option_map parse_ItemUpdate body with
       | Some (Some item_update) =>
           serve JsonItem (update_item item_id item_update) fs
       | _ => (unprocessable, fs)
       end.
Proof.
  destruct (str_of_Z_spec item_id) as (Hparse & Hslash & Hne).
  assert (Hlit : match_path (Literal "/items/") (item_path item_id) = None).
  { unfold match_path, item_path. now rewrite eqb_prefix_longer. }
  assert (Hpar : forall name,
             match_path (WithParam "/items/" name) (item_path item_id)
             = Some [str_of_Z item_id]).
  { intros name. unfold match_path, item_path. rewrite strip_prefix_append.
    apply String.eqb_neq in Hne. now rewrite Hne, Hslash. }
  unfold app, routes.
  cbn [first_full req_method req_path req_body]. unfold matches.
  cbn [route_path route_method].
  rewrite Hlit, !Hpar.
  cbn [method_eqb call hd_error option_map route_endpoint].
  rewrite Hparse. repeat split.
Qed.

(** ** Reading the table *)

Lemma validate_all_inv (df : DataFrame) (l : list Item.t) :
  validate_all df = Return l -> df = frame_of l.
Proof.
  revert l. induction df as [|r df IH]; intros l H; cbn [validate_all] in H.
  - injection H as <-. reflexivity.
  - destruct (Item.validate r) as [i|e] eqn:Hr; [|discriminate].
    destruct (validate_all df) as [l'|e] eqn:Hdf; [|discriminate].
    injection H as <-. cbn [frame_of map].
    rewrite (validate_inv _ _ Hr). f_equal. now apply IH.
Qed.

Lemma filter_first (item_id : Z) (l1 l2 : DataFrame) (r : Row.t) :
  Row.id r = item_id -> (forall x, In x l1 -> Row.id x <> item_id) ->
  exists rest,
    filter (fun x => Row.id x =? item_id) (l1 ++ r :: l2) = r :: rest.
Proof.
  intros Hr Hl1. rewrite filter_app. cbn [filter]. rewrite Hr, Z.eqb_refl.
  replace (filter (fun x => Row.id x =? item_id) l1) with (@nil Row.t).
  - eexists. reflexivity.
  - symmetry. apply filter_nil_iff. intros x Hx. apply Z.eqb_neq. now apply Hl1.
Qed.

Section Reading.
Context {csv : Csv}.

(** X17.  [get_all_items] returns a list of records exactly when the table
    is the frame of that list: every row, in the order of the table, or
    nothing when one row has a cell that is not text.  [get_items_count]
    then returns the length of the list. *)
Theorem get_all_items_returns_the_table (fs : FS) (l : list Item.t) :
  (fst (get_all_items fs) = Return l <-> table fs = frame_of l)
  /\ (fst (get_all_items fs) = Return l ->
      fst (get_items_count fs) = Return (Z.of_nat (List.length l))).
Proof.
  rewrite get_all_items_eq, get_items_count_eq. cbn [fst]. split; [split|].
  - apply validate_all_inv.
  - intros ->. apply validate_all_frame_of.
  - intros H. apply validate_all_inv in H. rewrite H. unfold frame_of.
    now rewrite length_map.
Qed.

(** X18.  An update without fields answers like a read: for every id and
    store, [update_item] with no field returns or raises what [get_item]
    does, and the table it leaves is the table it read. *)
Theorem update_no_fields_is_get_item (fs : FS) (item_id : Z) :
  fst (update_item item_id no_fields fs) = fst (get_item item_id fs)
  /\ (snd (update_item item_id no_fields fs) = Some (init_file fs)
      \/ snd (update_item item_id no_fields fs) = Some (to_csv (table fs))).
Proof.
  rewrite get_item_eq. cbn [fst].
  destruct (in_dec Z.eq_dec item_id (map Row.id (table fs))) as [Hin|Hnot].
  - destruct (first_with_id _ _ Hin) as (l1 & r & l2 & Ht & Hr & Hl1).
    rewrite (update_item_present _ _ _ _ _ _ Ht Hr Hl1).
    unfold update_conflict. cbn [no_fields ItemUpdate.codice_fiscale truthy andb].
    rewrite apply_no_fields. cbn [fst snd].
    destruct (filter_first item_id l1 l2 r Hr Hl1) as [rest E].
    rewrite Ht at 1. rewrite E. split; [reflexivity|]. right. now rewrite Ht.
  - rewrite (update_item_absent _ _ _ Hnot). cbn [fst snd].
    replace (filter (fun r => Row.id r =? item_id) (table fs)) with (@nil Row.t).
    + split; [reflexivity|now left].
    + symmetry. apply filter_nil_iff. intros x Hx. apply Z.eqb_neq.
      intros <-. apply Hnot. now apply in_map.
Qed.

(** X19.  No handler fails on the file or on an index: whatever the state
    (the file may not exist) and the arguments, none raises
    [FileNotFoundError] or [IndexError]. *)
Theorem handlers_find_the_file (fs : FS) (item : ItemCreate.t) (item_id : Z)
  (u : ItemUpdate.t) (e : exn) :
  e = FileNotFoundError \/ e = IndexError ->
  fst (create_item item fs) <> Raise e
  /\ fst (get_all_items fs) <> Raise e
  /\ fst (get_item item_id fs) <> Raise e
  /\ fst (update_item item_id u fs) <> Raise e
  /\ fst (delete_item item_id fs) <> Raise e
  /\ fst (get_items_count fs) <> Raise e
  /\ fst (read_csv fs) <> Raise e.
Proof.
  intros He.
  assert (Hv : forall d, Item.validate d <> Raise e).
  { intros d. destruct (validate_cases d) as [[i ->]| ->];
      destruct He as [-> | ->]; discriminate. }
  repeat split.
  - rewrite create_item_eq. destruct (isin _ _); cbv zeta; cbn [fst];
      destruct He as [-> | ->]; discriminate.
  - rewrite get_all_items_eq. cbn [fst].
    destruct (validate_all_cases (table fs)) as [[l ->]| ->];
      destruct He as [-> | ->]; discriminate.
  - rewrite get_item_eq. cbn [fst].
    destruct (filter _ (table fs)); [|apply Hv].
    destruct He as [-> | ->]; discriminate.
  - destruct (in_dec Z.eq_dec item_id (map Row.id (table fs))) as [Hin|Hnot].
    + destruct (first_with_id _ _ Hin) as (l1 & r & l2 & Ht & Hr & Hl1).
      rewrite (update_item_present _ _ _ _ _ _ Ht Hr Hl1).
      destruct (update_conflict item_id u (table fs)); cbn [fst]; [|apply Hv].
      destruct He as [-> | ->]; discriminate.
    + rewrite (update_item_absent _ _ _ Hnot). cbn [fst].
      destruct He as [-> | ->]; discriminate.
  - rewrite delete_item_eq. destruct (filter _ (table fs)); cbn [fst];
      destruct He as [-> | ->]; discriminate.
  - rewrite get_items_count_eq. cbn [fst]. destruct He as [-> | ->]; discriminate.
  - rewrite read_csv_eq. cbn [fst]. destruct He as [-> | ->]; discriminate.
Qed.

End Reading.

(** X20.  No request reaches [get_items_count]: whatever the method and
    the path, the route the application calls is never the one of
    [/items/count]. *)
Theorem count_endpoint_unreachable (m : method) (path : string) (r : route)
  (params : list string) :
  first_full routes m path = Some (r, params) ->
  route_endpoint r <> Ep_get_items_count.
Proof.
  intros H He. pose proof (first_full_route _ _ _ _ _ H) as (Hin & Hm & Hp).
  unfold routes in Hin. cbn [In] in Hin.
  destruct Hin as [<-|[<-|[<-|[<-|[<-|[<-|[<-|[]]]]]]]];
    cbn [route_endpoint] in He; try discriminate.
  cbn [route_method route_path match_path] in Hm, Hp. subst m.
  destruct (String.eqb_spec "/items/count" path) as [<-|]; [|discriminate].
  cbn in H. discriminate.
Qed.

(** ** Instances of the further properties *)

Lemma client_error_writes_nothing_witness :
  (status_code
     (fst (app (csv := Mem) (mkRequest PUT "/items/9" (Some []))
             (Some (frame_of [mario_1])))) <> 200
   /\ status_code
        (fst (app (csv := Mem) (mkRequest PUT "/items/9" (Some []))
                (Some (frame_of [mario_1])))) <> 500)
  /\ (snd (app (csv := Mem) (mkRequest PUT "/items/9" (Some []))
             (Some (frame_of [mario_1])))
      = Some (frame_of [mario_1])
      \/ snd (app (csv := Mem) (mkRequest PUT "/items/9" (Some []))
                (Some (frame_of [mario_1])))
         = Some (init_file (csv := Mem) (Some (frame_of [mario_1])))).
Proof.
  split; [split; discriminate|].
  apply (@client_error_writes_nothing Mem
           (mkRequest PUT "/items/9" (Some [])) (Some (frame_of [mario_1])));
    discriminate.
Defined.

Lemma records_never_500_witness :
  table (csv := Mem) (Some (frame_of [mario_1; luigi_2]))
  = frame_of [mario_1; luigi_2]
  /\ status_code
       (fst (app (csv := Mem) (mkRequest GET "/items/" None)
               (Some (frame_of [mario_1; luigi_2])))) <> 500.
Proof.
  split; [reflexivity|].
  apply (@records_never_500 Mem (mkRequest GET "/items/" None)
           (Some (frame_of [mario_1; luigi_2])) [mario_1; luigi_2]).
  reflexivity.
Defined.

Lemma update_twice_witness :
  (update_item (csv := Mem) 2 rename (Some (frame_of [mario_1; luigi_2]))
   = (Return (Item.mk 2 "Gino" "Verdi" "VRDLGU75B02F205X"),
      Some (frame_of [mario_1; Item.mk 2 "Gino" "Verdi" "VRDLGU75B02F205X"]))
   /\ forall df : DataFrame,
        Some (frame_of [mario_1; Item.mk 2 "Gino" "Verdi" "VRDLGU75B02F205X"])
        = Some (to_csv (Csv := Mem) df) ->
        pd_read_csv (Csv := Mem) (to_csv (Csv := Mem) df) = df)
  /\ update_item (csv := Mem) 2 rename
       (Some (frame_of [mario_1; Item.mk 2 "Gino" "Verdi" "VRDLGU75B02F205X"]))
     = (Return (Item.mk 2 "Gino" "Verdi" "VRDLGU75B02F205X"),
        Some (frame_of [mario_1; Item.mk 2 "Gino" "Verdi" "VRDLGU75B02F205X"])).
Proof.
  split; [split; [reflexivity|intros df _; reflexivity]|].
  apply (@update_twice Mem (Some (frame_of [mario_1; luigi_2])) 2 rename);
    [reflexivity|intros df _; reflexivity].
Defined.

Lemma create_twice_rejected_witness :
  (create_item (csv := Mem) mario None
   = (Return mario_1, Some (frame_of [mario_1]))
   /\ (forall df : DataFrame,
         Some (frame_of [mario_1]) = Some (to_csv (Csv := Mem) df) ->
         pd_read_csv (Csv := Mem) (to_csv (Csv := Mem) df) = df)
   /\ ItemCreate.codice_fiscale
        (ItemCreate.mk "Maria" "Rossi" "RSSMRA80A01H501U")
      = ItemCreate.codice_fiscale mario)
  /\ create_item (csv := Mem)
       (ItemCreate.mk "Maria" "Rossi" "RSSMRA80A01H501U")
       (Some (frame_of [mario_1]))
     = (Raise (HTTPException 400 "Codice fiscale already exists"),
        Some (frame_of [mario_1])).
Proof.
  split; [repeat split; intros df _; reflexivity|].
  apply (@create_twice_rejected Mem None mario
           (ItemCreate.mk "Maria" "Rossi" "RSSMRA80A01H501U") mario_1);
    [reflexivity|intros df _; reflexivity|reflexivity].
Defined.

Lemma create_delete_reuses_id_witness :
  (create_item (csv := Mem) luigi (Some (frame_of [mario_1]))
   = (Return luigi_2, Some (frame_of [mario_1; luigi_2]))
   /\ forall x,
        In x (table (csv := Mem) (Some (frame_of [mario_1]))) ->
        Row.codice_fiscale x <> VStr (ItemCreate.codice_fiscale anna))
  /\ delete_item (csv := Mem) (Item.id luigi_2)
       (Some (frame_of [mario_1; luigi_2]))
     = (Return "Item deleted successfully", Some (frame_of [mario_1]))
  /\ fst (create_item (csv := Mem) anna
            (snd (delete_item (csv := Mem) (Item.id luigi_2)
                    (Some (frame_of [mario_1; luigi_2])))))
     = Return (Item.mk 2 "Anna" "Bianchi" "BNCNNA90C43L219K").
Proof.
  assert (Hfree : forall x,
             In x (table (csv := Mem) (Some (frame_of [mario_1]))) ->
             Row.codice_fiscale x <> VStr (ItemCreate.codice_fiscale anna)).
  { intros x [<-|[]]. discriminate. }
  split; [split; [reflexivity|exact Hfree]|].
  apply (@create_delete_reuses_id Mem (Some (frame_of [mario_1])) luigi anna
           luigi_2 (Some (frame_of [mario_1; luigi_2])));
    [reflexivity|intros df _; reflexivity|reflexivity|exact Hfree].
Defined.

Lemma delete_then_not_found_witness :
  In 1 (map Row.id
          (table (csv := Mem)
             (Some [Item.to_row mario_1; Item.to_row luigi_2;
                    Row.mk 1 (VStr "Anna") VNaN (VInt 7)])))
  /\ delete_item (csv := Mem) 1
       (Some [Item.to_row mario_1; Item.to_row luigi_2;
              Row.mk 1 (VStr "Anna") VNaN (VInt 7)])
     = (Return "Item deleted successfully", Some [Item.to_row luigi_2])
  /\ fst (delete_item (csv := Mem) 1 (Some [Item.to_row luigi_2]))
     = Raise not_found.
Proof.
  split; [now left|].
  destruct (@delete_then_not_found Mem
              (Some [Item.to_row mario_1; Item.to_row luigi_2;
                     Row.mk 1 (VStr "Anna") VNaN (VInt 7)]) 1 rename
              (or_introl eq_refl))
    as (Hdel & _ & _ & Hafter).
  split; [exact Hdel|].
  destruct (Hafter eq_refl) as (_ & _ & H). exact H.
Defined.

Lemma update_fails_after_writing_witness :
  fst (update_item (csv := PandasNA) 1
         (ItemUpdate.mk None (Some "Bianchi") None)
         (Some [(1, "NA", "Rossi", "RSSMRA80A01H501U")]))
  = Raise ValidationError
  /\ snd (update_item (csv := PandasNA) 1
            (ItemUpdate.mk None (Some "Bianchi") None)
            (Some [(1, "NA", "Rossi", "RSSMRA80A01H501U")]))
     = Some [(1, "", "Bianchi", "RSSMRA80A01H501U")]
  /\ exists l1 r l2,
       Item.validate
         (apply_fields (ItemUpdate.mk None (Some "Bianchi") None) r)
       = Raise ValidationError
       /\ snd (update_item (csv := PandasNA) 1
                 (ItemUpdate.mk None (Some "Bianchi") None)
                 (Some [(1, "NA", "Rossi", "RSSMRA80A01H501U")]))
          = Some (to_csv (Csv := PandasNA)
                    (l1
                     ++ apply_fields
                          (ItemUpdate.mk None (Some "Bianchi") None) r
                     :: l2)).
Proof.
  split; [reflexivity|]. split; [reflexivity|].
  destruct (@update_fails_after_writing PandasNA
              (Some [(1, "NA", "Rossi", "RSSMRA80A01H501U")]) 1
              (ItemUpdate.mk None (Some "Bianchi") None) eq_refl)
    as (l1 & r & l2 & _ & _ & _ & Hv & H).
  exists l1, r, l2. split; assumption.
Defined.


Lemma marker_record_unreadable_witness :
  (has_marker (ItemCreate.mk "Ada" "Null" "NULL") = true
   /\ create_item (csv := PandasNA) (ItemCreate.mk "Ada" "Null" "NULL")
        (Some [(1, "Mario", "Rossi", "RSSMRA80A01H501U")])
      = (Return (Item.mk 2 "Ada" "Null" "NULL"),
         Some [(1, "Mario", "Rossi", "RSSMRA80A01H501U");
               (2, "Ada", "Null", "NULL")]))
  /\ fst (get_item (csv := PandasNA) (Item.id (Item.mk 2 "Ada" "Null" "NULL"))
            (Some [(1, "Mario", "Rossi", "RSSMRA80A01H501U");
                   (2, "Ada", "Null", "NULL")]))
     = Raise ValidationError
  /\ fst (get_all_items (csv := PandasNA)
            (Some [(1, "Mario", "Rossi", "RSSMRA80A01H501U");
                   (2, "Ada", "Null", "NULL")]))
     = Raise ValidationError.
Proof.
  split; [split; reflexivity|].
  apply (@marker_record_unreadable
           (Some [(1, "Mario", "Rossi", "RSSMRA80A01H501U")])
           (ItemCreate.mk "Ada" "Null" "NULL"));
    reflexivity.
Defined.

Lemma get_all_items_returns_the_table_witness :
  fst (get_all_items (csv := Mem) (Some (frame_of [mario_1; luigi_2])))
  = Return [mario_1; luigi_2]
  /\ fst (get_items_count (csv := Mem) (Some (frame_of [mario_1; luigi_2])))
     = Return 2.
Proof.
  destruct (@get_all_items_returns_the_table Mem
              (Some (frame_of [mario_1; luigi_2])) [mario_1; luigi_2])
    as [[_ H] Hc].
  split; [now apply H|]. apply Hc. now apply H.
Defined.

Lemma handlers_find_the_file_witness :
  (FileNotFoundError = FileNotFoundError \/ FileNotFoundError = IndexError)
  /\ fst (get_all_items (csv := Mem) None) <> Raise FileNotFoundError
  /\ fst (read_csv (csv := Mem) None) <> Raise FileNotFoundError.
Proof.
  split; [now left|].
  destruct (@handlers_find_the_file Mem None mario 1 rename FileNotFoundError
              (or_introl eq_refl))
    as (_ & H1 & _ & _ & _ & _ & H2).
  split; assumption.
Defined.

Lemma count_endpoint_unreachable_witness :
  first_full routes GET "/items/count"
  = Some (mkRoute GET (WithParam "/items/" "item_id") Ep_get_item, ["count"])
  /\ route_endpoint (mkRoute GET (WithParam "/items/" "item_id") Ep_get_item)
     <> Ep_get_items_count.
Proof.
  split; [reflexivity|].
  apply (count_endpoint_unreachable GET "/items/count"
           (mkRoute GET (WithParam "/items/" "item_id") Ep_get_item) ["count"]).
  reflexivity.
Defined.

Lemma marker_code_never_rejected_witness :
  is_na (ItemCreate.codice_fiscale (ItemCreate.mk "Luigi" "Verdi" "NA")) = true
  /\ exists new_id : Z,
       fst (create_item (csv := PandasNA) (ItemCreate.mk "Luigi" "Verdi" "NA")
              (Some [(1, "Mario", "Rossi", "NA")]))
       = Return (Item.mk new_id "Luigi" "Verdi" "NA").
Proof.
  split; [reflexivity|].
  destruct (@marker_code_never_rejected (Some [(1, "Mario", "Rossi", "NA")])
              (ItemCreate.mk "Luigi" "Verdi" "NA") eq_refl)
    as [new_id E].
  exists new_id. now rewrite E.
Defined.
